(** * data-api: the row filter and the row transformer

    A shallow embedding of [filterData] and [transformData], the two
    functions the [/data] handler applies to the rows of a sheet, with the
    part of the JavaScript semantics they rely on: property reads,
    truthiness, strict equality with a string, [String.prototype.split],
    the anchored [replace], assignment to a property of a shared object,
    and the TypeError of a method call on a value that has no such method.

    [filterData] is the same in the three source files.  [transformData]
    comes in two variants: the one of src/index.js and src/app.js (module
    [Index]) and the one of the third source file, with a second composite
    column and two more person-name columns (module [Part000]). *)

From Corelib Require Import PrimFloat.
From Stdlib Require Import Ascii String.
From stdpp Require Import gmap strings list fin_maps.

Local Open Scope string_scope.

(** ** JavaScript values *)

(** The cell of a parsed sheet is a string or a number; a property that is
    read but absent is [undefined].  [VObj] stands for any object or
    function reference (the members a plain object inherits from
    [Object.prototype], a date cell): only its being truthy and its not
    being a string are ever observed. *)
Inductive value : Type :=
  | VUndefined
  | VNull
  | VBool (b : bool)
  | VNum (x : float)
  | VStr (s : string)
  | VObj.

(** [ToBoolean]: the test of [if (v)], [v || w] and [v ? a : b]. *)
Definition truthy (v : value) : bool :=
  match v with
  | VUndefined | VNull => false
  | VBool b => b
  | VNum x => negb (is_zero x || is_nan x)
  | VStr s => negb (String.eqb s "")
  | VObj => true
  end.

(** [v || w] *)
Definition js_or (v w : value) : value := if truthy v then v else w.

(** [v === s] for a string [s]: no conversion, so only a string cell can
    be equal to it. *)
Definition strict_eq_str (v : value) (s : string) : bool :=
  match v with
  | VStr t => String.eqb t s
  | _ => false
  end.

(** ** Objects *)

(** A row is a plain object: own properties keyed by strings. *)
Abbreviation row := (gmap string value).

(** The property names every plain object inherits from
    [Object.prototype]; they evaluate to functions (or, for [__proto__],
    to the prototype object itself). *)
Definition proto_keys : list string :=
  [ "constructor"; "__proto__"; "hasOwnProperty"; "isPrototypeOf";
    "propertyIsEnumerable"; "toLocaleString"; "toString"; "valueOf";
    "__defineGetter__"; "__defineSetter__"; "__lookupGetter__";
    "__lookupSetter__" ].

(** [r[k]]: the own property when there is one, an inherited member
    otherwise, [undefined] when neither exists. *)
Definition get (r : row) (k : string) : value :=
  match r !! k with
  | Some v => v
  | None => if bool_decide (k ∈ proto_keys) then VObj else VUndefined
  end.

(** ** Strings *)

(** A text is the sequence of the bytes of its UTF-8 form.  The separators
    and the prefix the code looks for are ASCII, and no byte of a longer
    UTF-8 sequence is an ASCII one, so splitting and stripping cut at the
    places where they cut the UTF-16 text of the engine. *)

(** [s.split(sep)] for a non-empty separator [sep]: the text between the
    successive leftmost occurrences of [sep].  [skip] counts the characters
    of a matched separator still to be passed over, [cur] holds the
    current segment in reverse. *)
Fixpoint split_go (sep : string) (skip : nat) (cur : list ascii) (s : string)
  : list string :=
  match s with
  | EmptyString => [string_of_list_ascii (rev cur)]
  | String a s' =>
      match skip with
      | S n => split_go sep n cur s'
      | O =>
          if String.prefix sep s
          then string_of_list_ascii (rev cur)
                 :: split_go sep (String.length sep - 1) [] s'
          else split_go sep 0 (a :: cur) s'
      end
  end.

Definition js_split (s sep : string) : list string := split_go sep 0 [] s.

(** The characters after the first [n]. *)
Fixpoint string_drop (n : nat) (s : string) : string :=
  match n, s with
  | S n', String _ s' => string_drop n' s'
  | _, _ => s
  end.

(** [s.replace(/^Ext\. at /, '')]: the pattern is anchored at the start of
    the string and has no flags, so at most the leading occurrence, of 8
    characters, goes. *)
Definition strip_ext_at (s : string) : string :=
  if String.prefix "Ext. at " s then string_drop 8 s else s.

(** ** filterData *)

(** The constraints: own string-valued properties, as the specification
    types them (a parameter given once in the query string).  The callback
    reads [queryParams[field]] for the own keys only, so the read finds a
    value. *)
Abbreviation query := (gmap string string).

(** The callback given to [every].  For the field [tab] the [if] is not
    entered and the arrow function ends without a [return]: the call
    evaluates to [undefined]. *)
Definition field_test (r : row) (queryParams : query) (field : string) : value :=
  if bool_decide (field ≠ "tab")
  then
    let fieldValues := js_split (default "" (queryParams !! field)) "," in
    VBool (existsb (fun v => strict_eq_str (get r field) v) fieldValues)
  else VUndefined.

(** [Object.keys(queryParams)]. *)
Definition keys (queryParams : query) : list string :=
  (map_to_list queryParams).*1.

(** [Array.prototype.every] converts the callback's result with
    [ToBoolean]. *)
Definition row_passes (queryParams : query) (r : row) : bool :=
  forallb (fun field => truthy (field_test r queryParams field))
          (keys queryParams).

Definition filterData (data : list row) (queryParams : query) : list row :=
  List.filter (row_passes queryParams) data.

(** ** The object store and the exceptions of transformData *)

(** [transformData] assigns to properties of the row objects it is given,
    so the rows of its argument are references into a store of objects.
    A reference the store holds nothing for reads as the empty object. *)
Abbreviation loc := nat.
Abbreviation heap := (gmap loc row).

Inductive exn : Type := TypeError.

Inductive outcome (A : Type) : Type :=
  | Ok (a : A)
  | Throw (e : exn).
Arguments Ok {A} a.
Arguments Throw {A} e.

(** A computation reads and updates the store and either returns or
    throws; a [throw] leaves the updates made so far in place. *)
Definition M (A : Type) : Type := heap → heap * outcome A.

#[export] Instance M_ret : MRet M := λ A a h, (h, Ok a).
#[export] Instance M_bind : MBind M := λ A B f m h,
  match m h with
  | (h', Ok a) => f a h'
  | (h', Throw e) => (h', Throw e)
  end.

Definition throw {A} (e : exn) : M A := λ h, (h, Throw e).

(** [row[k]] *)
Definition read (l : loc) (k : string) : M value :=
  λ h, (h, Ok (get (h !!! l) k)).

(** [row[k] = v] *)
Definition write (l : loc) (k : string) (v : value) : M unit :=
  λ h, (<[l := <[k := v]> (h !!! l)]> h, Ok ()).

(** The own properties copied by [...row]. *)
Definition spread (l : loc) : M row := λ h, (h, Ok (h !!! l)).

(** [v.replace(/^Ext\. at /, '')]: only a string has a [replace] method
    among the values of the model; reading it off [undefined] or [null],
    or calling the [undefined] a number, boolean or plain object has for
    it, is a TypeError. *)
Definition call_replace_ext_at (v : value) : M string :=
  match v with
  | VStr s => mret (strip_ext_at s)
  | _ => throw TypeError
  end.

(** [v.split(sep)], likewise. *)
Definition call_split (v : value) (sep : string) : M (list string) :=
  match v with
  | VStr s => mret (js_split s sep)
  | _ => throw TypeError
  end.

(** An element of an array of strings read by index or by destructuring:
    [undefined] past the end. *)
Definition elem (a : list string) (i : nat) : value :=
  match a !! i with
  | Some s => VStr s
  | None => VUndefined
  end.

(** The text a string or [undefined] contributes to a template literal. *)
Definition template_text (v : value) : string :=
  match v with
  | VStr s => s
  | _ => "undefined"
  end.

(** The block that derives a client and a project from the composite
    column [k]:
<<
    var client = ''; var project = '';
    if (row[k]) {
        const primaryOpp = (row[k] || '').replace(/^Ext\. at /, '');
        const segments = primaryOpp.split(' - ');
        if (segments.length >= 2) { client = segments[0]; project = segments[1]; }
    }
>>
    The result is the triple of the stripped text (which the variant with
    two composite columns keeps), the client and the project. *)
Definition derive (l : loc) (k : string) : M (value * value * value) :=
  c ← read l k;
  if truthy c then
    c' ← read l k;
    primaryOpp ← call_replace_ext_at (js_or c' (VStr ""));
    segments ← call_split (VStr primaryOpp) " - ";
    if (2 <=? List.length segments)%nat
    then mret (VStr primaryOpp, elem segments 0, elem segments 1)
    else mret (VStr primaryOpp, VStr "", VStr "")
  else mret (VStr "", VStr "", VStr "").

(** The block that rewrites the person-name column [k]:
<<
    if (row[k]) {
        const [lastName, firstName] = (row[k] || '').split(', ');
        row[k] = firstName ? `${firstName} ${lastName}` : '';
    }
>> *)
Definition convertName (l : loc) (k : string) : M unit :=
  c ← read l k;
  if truthy c then
    c' ← read l k;
    parts ← call_split (js_or c' (VStr "")) ", ";
    let lastName := elem parts 0 in
    let firstName := elem parts 1 in
    write l k (if truthy firstName
               then VStr (template_text firstName ++ " " ++ template_text lastName)
               else VStr "")
  else mret ().

(** [Array.prototype.map]: the callback runs on the elements in order and
    its results make the new array; an exception ends the loop. *)
Fixpoint array_map {A B} (f : A → M B) (a : list A) : M (list B) :=
  match a with
  | [] => mret []
  | x :: a' => y ← f x; ys ← array_map f a'; mret (y :: ys)
  end.

(** ** transformData of src/index.js (and of src/app.js) *)
Module Index.

Definition transformRow (l : loc) : M row :=
  '(_, client, project) ← derive l "Primary Opp";
  convertName l "Name";;
  convertName l "Primary Owner";;
  r ← spread l;
  mret (<["Project" := project]> (<["Client" := client]> r)).

Definition transformData (spreadsheetData : list loc) : M (list row) :=
  array_map transformRow spreadsheetData.

End Index.

(** ** transformData of the third source file: two composite columns and
    four person-name columns *)
Module Part000.

Definition transformRow (l : loc) : M row :=
  '(next_client_project, next_client, next_project) ← derive l "Primary Opp";
  '(current_client_project, current_client, current_project) ← derive l "Current Eng.";
  convertName l "Name";;
  convertName l "Primary Owner";;
  convertName l "Current Owner";;
  convertName l "Manager";;
  r ← spread l;
  mret (<["NextProject" := next_project]>
        (<["NextClient" := next_client]>
         (<["NextClientOpp" := next_client_project]>
          (<["Project" := current_project]>
           (<["Client" := current_client]>
            (<["ClientProject" := current_client_project]> r)))))).

Definition transformData (spreadsheetData : list loc) : M (list row) :=
  array_map transformRow spreadsheetData.

End Part000.

(** ** The filter as the specification words it *)

(** A row passes the test of a constraint key when its cell in that
    column is, as a string, one of the accepted values: the members of the
    constraint's value split on the comma. *)
Definition passes_key (r : row) (field accepted : string) : Prop :=
  ∃ s, s ∈ js_split accepted "," ∧ get r field = VStr s.

(** A row is kept when it passes every key of the constraints. *)
Definition passes_all (q : query) (r : row) : Prop :=
  ∀ field accepted, q !! field = Some accepted → passes_key r field accepted.

(** ** The transformation as the specification words it *)

(** The derived client and project of a composite cell: for a present,
    non-empty text the leading [Ext. at ] goes, the rest is split on
    [ - ], and two or more segments give segment 0 and segment 1; in every
    other case both are empty. *)
Definition composite_spec (cell : value) : string * string :=
  match cell with
  | VStr s =>
      if String.eqb s "" then ("", "")
      else match js_split (strip_ext_at s) " - " with
           | client :: project :: _ => (client, project)
           | _ => ("", "")
           end
  | _ => ("", "")
  end.

(** The same as a relation between a composite cell and the two cells
    derived from it. *)
Definition composite_rule (cell : value) (client project : option value)
  : Prop :=
  (∀ s, cell = VStr s → s ≠ "" →
     match js_split (strip_ext_at s) " - " with
     | segment0 :: segment1 :: _ =>
         client = Some (VStr segment0) ∧ project = Some (VStr segment1)
     | _ => client = Some (VStr "") ∧ project = Some (VStr "")
     end)
  ∧ (truthy cell = false →
     client = Some (VStr "") ∧ project = Some (VStr "")).

(** The person-name rule as worded: a right-hand segment gives
    [<right> <left>], no delimiter gives the empty text. *)
Definition name_spec (s : string) : string :=
  match js_split s ", " with
  | lastName :: firstName :: _ => firstName ++ " " ++ lastName
  | _ => ""
  end.

(** The person-name rule with the test the code makes on the right-hand
    segment: it has to be non-empty. *)
Definition name_rule (s : string) : string :=
  match js_split s ", " with
  | lastName :: firstName :: _ =>
      if String.eqb firstName "" then "" else firstName ++ " " ++ lastName
  | _ => ""
  end.

(** The cells on which the two blocks do not throw: a string, or anything
    falsy (an absent or empty cell, [null], [false], the number zero). *)
Definition cell_ok (v : value) : bool :=
  match v with
  | VStr _ => true
  | _ => negb (truthy v)
  end.

(** ** Closed forms of the blocks *)

(** The store after [convertName l k] has returned. *)
Definition convert_heap (k : string) (l : loc) (h : heap) : heap :=
  match get (h !!! l) k with
  | VStr s =>
      if String.eqb s "" then h
      else <[l := <[k := VStr (name_rule s)]> (h !!! l)]> h
  | _ => h
  end.

(** The same on the row alone. *)
Definition convert_row (k : string) (r : row) : row :=
  match get r k with
  | VStr s => if String.eqb s "" then r else <[k := VStr (name_rule s)]> r
  | _ => r
  end.

(** What [derive l k] returns on a cell it accepts. *)
Definition derived (cell : value) : value * value * value :=
  match cell with
  | VStr s =>
      if String.eqb s "" then (VStr "", VStr "", VStr "")
      else
        let segments := js_split (strip_ext_at s) " - " in
        if (2 <=? List.length segments)%nat
        then (VStr (strip_ext_at s), elem segments 0, elem segments 1)
        else (VStr (strip_ext_at s), VStr "", VStr "")
  | _ => (VStr "", VStr "", VStr "")
  end.

(** The store and the row after [convertName l k] has returned for each
    [k] of [ks] in turn. *)
Definition convert_heaps (ks : list string) (l : loc) (h : heap) : heap :=
  foldl (λ h k, convert_heap k l h) h ks.

Definition convert_rows (ks : list string) (r : row) : row :=
  foldl (λ r k, convert_row k r) r ks.

(** The rows whose cells in the columns [ks] are all accepted. *)
Definition cells_ok (ks : list string) (r : row) : bool :=
  forallb (λ k, cell_ok (get r k)) ks.

(** A loop of [array_map] whose callback moves the store by [step] and
    returns [out]: the store at the end and the array returned. *)
Definition run_heap (step : loc → heap → heap) (ls : list loc) (h : heap)
  : heap :=
  foldl (λ h l, step l h) h ls.

Fixpoint run_outputs (step : loc → heap → heap) (out : loc → heap → row)
    (ls : list loc) (h : heap) : list row :=
  match ls with
  | [] => []
  | l :: ls' => out l h :: run_outputs step out ls' (step l h)
  end.

(** ** The two variants side by side *)

(** [Single]: one composite column, as in src/index.js and src/app.js;
    [Dual]: the current and the next engagement, as in the third file. *)
Inductive schema : Type := Single | Dual.

Definition transformRow_of (v : schema) : loc → M row :=
  match v with
  | Single => Index.transformRow
  | Dual => Part000.transformRow
  end.

Definition transformData_of (v : schema) : list loc → M (list row) :=
  match v with
  | Single => Index.transformData
  | Dual => Part000.transformData
  end.

(** The composite columns and the person-name columns a variant reads, in
    the order it reads them. *)
Definition composites (v : schema) : list string :=
  match v with
  | Single => ["Primary Opp"]
  | Dual => ["Primary Opp"; "Current Eng."]
  end.

Definition names (v : schema) : list string :=
  match v with
  | Single => ["Name"; "Primary Owner"]
  | Dual => ["Name"; "Primary Owner"; "Current Owner"; "Manager"]
  end.

(** The composite column [Client] and [Project] are derived from, and
    the columns the returned object adds to the row. *)
Definition client_source (v : schema) : string :=
  match v with
  | Single => "Primary Opp"
  | Dual => "Current Eng."
  end.

Definition derived_keys (v : schema) : list string :=
  match v with
  | Single => ["Client"; "Project"]
  | Dual => ["ClientProject"; "Client"; "Project";
             "NextClientOpp"; "NextClient"; "NextProject"]
  end.

(** The rows on which the callback of a variant returns. *)
Definition row_ok (v : schema) (r : row) : bool :=
  cells_ok (composites v ++ names v) r.

(** The store after the callback has run on [l]. *)
Definition row_heap (v : schema) (l : loc) (h : heap) : heap :=
  convert_heaps (names v) l h.

(** The object the callback returns for [l]. *)
Definition output (v : schema) (l : loc) (h : heap) : row :=
  let r := row_heap v l h !!! l in
  match v with
  | Single =>
      let '(_, client, project) := derived (get (h !!! l) "Primary Opp") in
      <["Project" := project]> (<["Client" := client]> r)
  | Dual =>
      let '(next_client_project, next_client, next_project) :=
        derived (get (h !!! l) "Primary Opp") in
      let '(current_client_project, current_client, current_project) :=
        derived (get (h !!! l) "Current Eng.") in
      <["NextProject" := next_project]>
        (<["NextClient" := next_client]>
         (<["NextClientOpp" := next_client_project]>
          (<["Project" := current_project]>
           (<["Client" := current_client]>
            (<["ClientProject" := current_client_project]> r)))))
  end.

(** * Further readings of the two functions *)

(** [sep] occurs somewhere in [s]. *)
Fixpoint occurs (sep s : string) : bool :=
  match s with
  | EmptyString => String.prefix sep s
  | String _ s' => String.prefix sep s || occurs sep s'
  end.

(** What the callback of a variant returns for a row, as a function of
    the row alone: the name columns rewritten, the derived columns
    added. *)
Definition transformRow_pure (v : schema) (r : row) : row :=
  let r' := convert_rows (names v) r in
  match v with
  | Single =>
      let '(_, client, project) := derived (get r "Primary Opp") in
      <["Project" := project]> (<["Client" := client]> r')
  | Dual =>
      let '(next_client_project, next_client, next_project) :=
        derived (get r "Primary Opp") in
      let '(current_client_project, current_client, current_project) :=
        derived (get r "Current Eng.") in
      <["NextProject" := next_project]>
        (<["NextClient" := next_client]>
         (<["NextClientOpp" := next_client_project]>
          (<["Project" := current_project]>
           (<["Client" := current_client]>
            (<["ClientProject" := current_client_project]> r')))))
  end.

(** The text a composite cell leaves once the leading [Ext. at ] is gone,
    next to the client and the project taken from it: the three cells the
    variant with two composite columns derives from one composite
    column. *)
Definition composite_text_rule (cell : value)
    (text client project : option value) : Prop :=
  ∃ t c p,
    text = Some (VStr t) ∧ client = Some (VStr c) ∧ project = Some (VStr p)
    ∧ (∀ s, cell = VStr s → t = strip_ext_at s)
    ∧ (truthy cell = false → t = "")
    ∧ ((c = "" ∧ p = "") ∨ ∃ tail, t = c ++ " - " ++ p ++ tail).

(** [sep] starts at no place of [u] other than its end, in the text
    [u ++ rest]. *)
Fixpoint clean (sep u rest : string) : bool :=
  match u with
  | EmptyString => true
  | String a u' => negb (String.prefix sep (u ++ rest)) && clean sep u' rest
  end.

(** * The rest of the server: the key check, the stream reader, the
    handlers *)

(** [process.env.NAME] and [req.headers[name]]: a string, or [undefined]
    when the variable or the header is not there. *)
Definition of_option (o : option string) : value :=
  match o with
  | Some s => VStr s
  | None => VUndefined
  end.

(** [v === w].  Two object references are nowhere compared in the code;
    the model, which does not tell objects apart, answers [false] for
    them. *)
Definition strict_eq (v w : value) : bool :=
  match v, w with
  | VUndefined, VUndefined | VNull, VNull => true
  | VBool a, VBool b => Bool.eqb a b
  | VNum x, VNum y => PrimFloat.eqb x y
  | VStr s, VStr t => String.eqb s t
  | _, _ => false
  end.

(** What a [catch] receives: an exception of the engine, or an [Error]
    object with its message ([new Error(...)], or the error of the storage
    client, of the stream or of the xlsx library). *)
Inductive thrown : Type :=
  | EngineError (e : exn)
  | ErrorObject (message : string).

Inductive body : Type :=
  | Text (s : string)
  | Json (rows : list row)
  | EngineMessage (e : exn).

(** [res.status(n).send(...)] or [res.status(n).json(...)]. *)
Record response : Type := Response { res_status : nat; res_body : body }.

(** [res.status(500).send(error.message)] *)
Definition caught (e : thrown) : response :=
  match e with
  | ErrorObject message => Response 500 (Text message)
  | EngineError e => Response 500 (EngineMessage e)
  end.

(** ** apiKeyCheck *)

Inductive verdict : Type :=
  | Refused (r : response)
  | Next.

Definition apiKeyCheck (env headers : gmap string string) : verdict :=
  let apiKey := of_option (env !! "MY_API_KEY") in
  let requestApiKey := of_option (headers !! "x-api-key") in
  if negb (truthy apiKey) || negb (strict_eq requestApiKey apiKey)
  then Refused (Response 401 (Text "Unauthorized: Invalid API key"))
  else Next.

(** The two lines src/index.js writes to the console before the test. *)
Definition apiKeyCheck_log (env headers : gmap string string)
  : list (string * value) :=
  [ ("API Key:", of_option (env !! "MY_API_KEY"));
    ("Request API Key:", of_option (headers !! "x-api-key")) ].

(** ** streamToBuffer *)

(** A buffer is the list of its bytes.  A chunk that is no [Buffer] goes
    through [Buffer.from]: for a string, its bytes. *)
Inductive chunk : Type :=
  | ChunkBuffer (b : list ascii)
  | ChunkString (s : string).

Definition to_buffer (data : chunk) : list ascii :=
  match data with
  | ChunkBuffer b => b
  | ChunkString s => list_ascii_of_string s
  end.

(** What the stream emits, in the order it emits it. *)
Inductive stream_event : Type :=
  | OnData (data : chunk)
  | OnEnd
  | OnError (e : thrown).

Inductive promise (A : Type) : Type :=
  | Pending
  | Fulfilled (a : A)
  | Rejected (e : thrown).
Arguments Pending {A}.
Arguments Fulfilled {A} a.
Arguments Rejected {A} e.

(** [resolve] and [reject] act on a pending promise only. *)
Definition resolve {A} (a : A) (p : promise A) : promise A :=
  match p with
  | Pending => Fulfilled a
  | _ => p
  end.

Definition reject {A} (e : thrown) (p : promise A) : promise A :=
  match p with
  | Pending => Rejected e
  | _ => p
  end.

(** The array [chunks] and the promise, and the three listeners. *)
Record reader : Type :=
  Reader { chunks : list (list ascii); settled : promise (list ascii) }.

Definition listen (st : reader) (ev : stream_event) : reader :=
  match ev with
  | OnData data => Reader (chunks st ++ [to_buffer data])%list (settled st)
  | OnEnd =>
      Reader (chunks st) (resolve (List.concat (chunks st)) (settled st))
  | OnError e => Reader (chunks st) (reject e (settled st))
  end.

Definition streamToBuffer (readableStream : list stream_event)
  : promise (list ascii) :=
  settled (foldl listen (Reader [] Pending) readableStream).

(** ** The storage calls *)

(** How the client is made: from a connection string, or with the
    managed identity for the URL of an account. *)
Inductive account : Type :=
  | ConnectionString (cs : option string)
  | ManagedIdentity (url : string).

Record blob_address : Type :=
  BlobAddress { acct : account; containerName : string; blobName : string }.

(** What a call gives back to the code that awaits it. *)
Inductive result (A : Type) : Type :=
  | Returned (a : A)
  | Raised (e : thrown).
Arguments Returned {A} a.
Arguments Raised {A} e.

Inductive call : Type → Type :=
  | Client (a : account) : call (result ())
  | Upload (a : blob_address) (content : list ascii) (length : nat)
      : call (result (option string))
  | Download (a : blob_address) (offset : nat)
      : call (result (list stream_event)).

(** A handler: the calls it makes, each with what it does with the
    answer, and at the end the response it has sent, if any. *)
Inductive prog (R : Type) : Type :=
  | Ret (r : R)
  | Call (X : Type) (c : call X) (k : X → prog R).
Arguments Ret {R} r.
Arguments Call {R X} c k.

(** The account of a request: src/index.js and src/app.js always take the
    connection string; the third file takes it when it is set and
    otherwise the managed identity of [AZURE_STORAGE_ACCOUNT]. *)
Definition account_of (v : schema) (env : gmap string string) : account :=
  match v with
  | Single => ConnectionString (env !! "AZURE_STORAGE_CONNECTION_STRING")
  | Dual =>
      if truthy (of_option (env !! "AZURE_STORAGE_CONNECTION_STRING"))
      then ConnectionString (env !! "AZURE_STORAGE_CONNECTION_STRING")
      else ManagedIdentity
             ("https://"
              ++ template_text (of_option (env !! "AZURE_STORAGE_ACCOUNT"))
              ++ ".blob.core.windows.net")
  end.

(** ** The upload handler *)

(** [req.file], as multer leaves it. *)
Record file : Type :=
  File { originalname : string; buffer : list ascii; size : nat }.

(** [env0] is the environment when the module was loaded: src/index.js
    and src/app.js read the connection string for uploads once, then.
    The client is made, and the upload awaited, outside any [try]: when
    either throws no response is sent. *)
Definition upload_handler (v : schema) (env0 env : gmap string string)
    (req_file : option file) : prog (option response) :=
  match req_file with
  | None => Ret (Some (Response 400 (Text "No file uploaded.")))
  | Some f =>
      let a := account_of v (match v with Single => env0 | Dual => env end) in
      Call (Client a) (λ client,
        match client with
        | Raised _ => Ret None
        | Returned _ =>
            Call (Upload (BlobAddress a "data" "spreadsheet.xlsx")
                    (buffer f) (size f))
              (λ uploadBlobResponse,
                 match uploadBlobResponse with
                 | Raised _ => Ret None
                 | Returned requestId =>
                     Ret (Some (Response 200
                       (Text ("File uploaded successfully. Upload block blob response: "
                              ++ template_text (of_option requestId)))))
                 end)
        end)
  end.

(** ** The query of a request *)

(** A value of [req.query]: the text of a parameter that is given once,
    or, for a parameter that is given more than once or written with
    brackets, an array or an object.  Neither of the two has a [split];
    [text] is what it reads as where a text or a property name is
    wanted. *)
Inductive query_value : Type :=
  | QueryString (s : string)
  | QueryObject (text : string).

(** [req.query]: its own properties, in the order [Object.keys] lists
    them. *)
Abbreviation request_query := (list (string * query_value)).

(** [queryParams[k]], for the names [req.query] is read at. *)
Fixpoint query_get (queryParams : request_query) (k : string)
  : option query_value :=
  match queryParams with
  | [] => None
  | (k', x) :: rest => if String.eqb k' k then Some x else query_get rest k
  end.

(** [delete queryParams[k]] *)
Definition query_delete (k : string) (queryParams : request_query)
  : request_query :=
  List.filter (λ kv, negb (String.eqb kv.1 k)) queryParams.

(** [ToBoolean] and the text of the value read at a name, [undefined]
    when there is none. *)
Definition query_truthy (x : option query_value) : bool :=
  match x with
  | Some (QueryString s) => negb (String.eqb s "")
  | Some (QueryObject _) => true
  | None => false
  end.

Definition query_text (x : option query_value) : string :=
  match x with
  | Some (QueryString s) => s
  | Some (QueryObject text) => text
  | None => "undefined"
  end.

(** A query of parameters that are each given once. *)
Definition string_query (params : list (string * string)) : request_query :=
  (λ kv, (kv.1, QueryString kv.2)) <$> params.

(** ** filterData, on the query of a request *)

(** The callback given to [every]: [queryParams[field].split] is a
    function for a string only, and calling what is not a function is a
    TypeError. *)
Definition field_test_request (r : row) (queryParams : request_query)
    (field : string) : outcome value :=
  if bool_decide (field ≠ "tab")
  then
    match query_get queryParams field with
    | Some (QueryString s) =>
        let fieldValues := js_split s "," in
        Ok (VBool (existsb (fun v => strict_eq_str (get r field) v) fieldValues))
    | _ => Throw TypeError
    end
  else Ok VUndefined.

(** [every] calls the callback name by name and stops at the first
    result that is falsy. *)
Fixpoint every_request (r : row) (queryParams : request_query)
    (fields : list string) : outcome bool :=
  match fields with
  | [] => Ok true
  | field :: rest =>
      match field_test_request r queryParams field with
      | Throw e => Throw e
      | Ok b => if truthy b then every_request r queryParams rest else Ok false
      end
  end.

(** [filter] calls its callback row by row. *)
Fixpoint filterData_request (data : list row) (queryParams : request_query)
  : outcome (list row) :=
  match data with
  | [] => Ok []
  | r :: rest =>
      match every_request r queryParams queryParams.*1 with
      | Throw e => Throw e
      | Ok keep =>
          match filterData_request rest queryParams with
          | Throw e => Throw e
          | Ok kept => Ok (if keep then r :: kept else kept)
          end
      end
  end.

(** ** The data handler *)

Definition dquote : string := String (ascii_of_nat 34) EmptyString.

(** The message of the error for a tab that names no sheet. *)
Definition tab_not_found (sheetName : string) : string :=
  "Tab " ++ dquote ++ sheetName ++ dquote
  ++ " not found in the spreadsheet.".

(** The rows [sheet_to_json] returns are new objects: they take the
    places [0], [1], ... of an empty store. *)
Definition fresh_rows (rows : list row) : heap * list loc :=
  (map_seq 0 rows, seq 0 (List.length rows)).

Section data.
(** The xlsx library: the worksheets it holds, the sheets [XLSX.read]
    finds in a buffer, and the rows [XLSX.utils.sheet_to_json] reads from
    what [workbook.Sheets[sheetName]] is. *)
Context {W : Type}.

(** [workbook.Sheets[sheetName]]: [Sheets] is a plain object. *)
Inductive sheet_value : Type :=
  | NoSheet
  | Worksheet (w : W)
  | InheritedMember.

Definition sheets_get (sheets : gmap string W) (k : string) : sheet_value :=
  match sheets !! k with
  | Some w => Worksheet w
  | None => if bool_decide (k ∈ proto_keys) then InheritedMember else NoSheet
  end.

Definition sheet_truthy (worksheet : sheet_value) : bool :=
  match worksheet with
  | NoSheet => false
  | _ => true
  end.

(** What [req.query] is depends on the Express that is installed, which
    the sources do not fix: a property that holds the parsed query, so
    that [delete req.query.tab] takes [tab] out of what [filterData] is
    given (Express 4), or an accessor that parses the URL anew at every
    read, so that the [delete] acts on an object nobody reads again
    (Express 5). *)
Variable query_is_accessor : bool.

Variable xlsx_read : list ascii → result (gmap string W).
Variable sheet_to_json : sheet_value → result (list row).

(** The body of the [try], from the buffer on.  [req_query] is the
    parsed query of the request. *)
Definition data_try (v : schema) (req_query : request_query)
    (buffer : list ascii) : result response :=
  let sheetName := query_get req_query "tab" in
  match xlsx_read buffer with
  | Raised e => Raised e
  | Returned sheets =>
      let worksheet := sheets_get sheets (query_text sheetName) in
      if negb (sheet_truthy worksheet)
      then Raised (ErrorObject (tab_not_found (query_text sheetName)))
      else if query_truthy sheetName
      then
        match sheet_to_json worksheet with
        | Raised e => Raised e
        | Returned worksheetData =>
            let '(h, ls) := fresh_rows worksheetData in
            match transformData_of v ls h with
            | (_, Throw e) => Raised (EngineError e)
            | (_, Ok transformedData) =>
                let queryParams :=
                  if query_is_accessor then req_query
                  else query_delete "tab" req_query in
                match filterData_request transformedData queryParams with
                | Throw e => Raised (EngineError e)
                | Ok filteredData =>
                    Returned (Response 200 (Json filteredData))
                end
            end
        end
      else Returned (Response 400 (Text "Tab query parameter is required"))
  end.

(** The [try] with its [catch], from the answer of the download on.  A
    stream that neither ends nor fails leaves the handler waiting. *)
Definition data_respond (v : schema) (req_query : request_query)
    (download : result (list stream_event)) : option response :=
  match download with
  | Raised e => Some (caught e)
  | Returned readableStreamBody =>
      match streamToBuffer readableStreamBody with
      | Pending => None
      | Rejected e => Some (caught e)
      | Fulfilled buffer =>
          match data_try v req_query buffer with
          | Raised e => Some (caught e)
          | Returned res => Some res
          end
      end
  end.

(** The client is made before the [try]. *)
Definition data_handler (v : schema) (env : gmap string string)
    (req_query : request_query) : prog (option response) :=
  let a := account_of v env in
  Call (Client a) (λ client,
    match client with
    | Raised _ => Ret None
    | Returned _ =>
        Call (Download (BlobAddress a "data" "spreadsheet.xlsx") 0)
          (λ download, Ret (data_respond v req_query download))
    end).

End data.

(** ** A blob store to run the handlers against *)

(** The storage is not part of the server.  To say how the handlers fit
    together they are run against a store that keeps, for each address,
    what was uploaded there last, and hands it out in chunks of its own
    choosing. *)
#[export] Instance account_eq_dec : EqDecision account.
Proof. solve_decision. Defined.
#[export] Instance blob_address_eq_dec : EqDecision blob_address.
Proof. solve_decision. Defined.

Definition store : Type := blob_address → option (list ascii).

Section store.
(** Whether a client can be made for an account, the request id of an
    upload, how a download is cut into chunks, and the errors of the
    store. *)
Variable connect : account → result ().
Variable requestId : option string.
Variable chunking : list ascii → list chunk.
Variables (blob_not_found length_mismatch : thrown).

Definition answer {X} (c : call X) (st : store) : store * X :=
  match c in call X return store * X with
  | Client a => (st, connect a)
  | Upload a content length =>
      if bool_decide (length = List.length content)
      then (λ a', if bool_decide (a' = a) then Some content else st a',
            Returned requestId)
      else (st, Raised length_mismatch)
  | Download a offset =>
      match st a with
      | Some content =>
          (st, Returned ((OnData <$> chunking (drop offset content))
                         ++ [OnEnd])%list)
      | None => (st, Raised blob_not_found)
      end
  end.

Fixpoint run {R} (p : prog R) (st : store) : store * R :=
  match p with
  | Ret r => (st, r)
  | Call c k => let '(st', x) := answer c st in run (k x) st'
  end.

End store.

(** * Worked examples *)

Example split_two_values : js_split "East,West" "," = ["East"; "West"].
Proof. reflexivity. Qed.
Example split_three_segments : js_split "a - b - c" " - " = ["a"; "b"; "c"].
Proof. reflexivity. Qed.
Example split_empty_text : js_split "" "," = [""].
Proof. reflexivity. Qed.
Example split_trailing_delimiter : js_split "Doe, " ", " = ["Doe"; ""].
Proof. reflexivity. Qed.
Example split_adjacent_delimiters : js_split ", ," "," = [""; " "; ""].
Proof. reflexivity. Qed.
Example strip_leading_ext_at : strip_ext_at "Ext. at Acme - Widget" = "Acme - Widget".
Proof. reflexivity. Qed.
Example truthy_numbers :
  truthy (VNum 0%float) = false ∧ truthy (VNum 3%float) = true.
Proof. split; reflexivity. Qed.

(** The examples of the specification. *)

Example filter_or_within_and_across :
  let data : list row :=
    [ {[ "Region" := VStr "East"; "Status" := VStr "Active" ]};
      {[ "Region" := VStr "West"; "Status" := VStr "Active" ]} ] in
  filterData data {[ "Region" := "East,West"; "Status" := "Active" ]} = data
  ∧ filterData data {[ "Region" := "East"; "Status" := "Active" ]}
    = [ {[ "Region" := VStr "East"; "Status" := VStr "Active" ]} ].
Proof. split; vm_compute; reflexivity. Qed.

(** A numeric cell is never strictly equal to the text of a query. *)
Example filter_number_cell :
  filterData [ {[ "Year" := VNum 2024%float ]} ] {[ "Year" := "2024" ]} = [].
Proof. vm_compute. reflexivity. Qed.

(** A column name that a plain object inherits reads as a function, which
    is no string either. *)
Example filter_inherited_member :
  filterData [ {[ "Region" := VStr "East" ]} ] {[ "toString" := "" ]} = [].
Proof. vm_compute. reflexivity. Qed.

Example transform_happy_path :
  (Index.transformData [0]
     {[ 0 := {[ "Primary Opp" := VStr "Ext. at Acme - Widget";
                "Name" := VStr "Doe, Jane" ]} ]}).2
  = Ok [ {[ "Primary Opp" := VStr "Ext. at Acme - Widget";
            "Name" := VStr "Jane Doe";
            "Client" := VStr "Acme"; "Project" := VStr "Widget" ]} ].
Proof. vm_compute. reflexivity. Qed.

Example transform_no_delimiter :
  (Index.transformData [0]
     {[ 0 := {[ "Primary Opp" := VStr "Acme Only"; "Name" := VStr "Solo" ]} ]}).2
  = Ok [ {[ "Primary Opp" := VStr "Acme Only"; "Name" := VStr "";
            "Client" := VStr ""; "Project" := VStr "" ]} ].
Proof. vm_compute. reflexivity. Qed.

(** The rows of the argument are rewritten in place. *)
Example transform_in_place :
  (Index.transformData [0] {[ 0 := {[ "Name" := VStr "Doe, Jane" ]} ]}).1
  = {[ 0 := {[ "Name" := VStr "Jane Doe" ]} ]}.
Proof. vm_compute. reflexivity. Qed.

Example transform_dual :
  (Part000.transformData [0]
     {[ 0 := {[ "Current Eng." := VStr "Ext. at Acme - Widget";
                "Manager" := VStr "Roe, Richard" ]} ]}).2
  = Ok [ {[ "Current Eng." := VStr "Ext. at Acme - Widget";
            "Manager" := VStr "Richard Roe";
            "ClientProject" := VStr "Acme - Widget";
            "Client" := VStr "Acme"; "Project" := VStr "Widget";
            "NextClientOpp" := VStr ""; "NextClient" := VStr "";
            "NextProject" := VStr "" ]} ].
Proof. vm_compute. reflexivity. Qed.

(** * split: the segments joined by the separator give the text back *)

Section split_facts.
Implicit Types (s sep : string) (cur : list ascii).

Lemma split_go_nonempty sep n cur s : split_go sep n cur s ≠ [].
Proof.
  revert n cur. induction s as [|a s IH]; intros n cur; [done|].
  cbn [split_go]. destruct n; [|apply IH].
  destruct (String.prefix sep (String a s)); [done|apply IH].
Qed.

Lemma js_split_nonempty s sep : js_split s sep ≠ [].
Proof. apply split_go_nonempty. Qed.

Lemma append_cons (a : ascii) s t : String a s ++ t = String a (s ++ t).
Proof. reflexivity. Qed.

Lemma append_empty_l s : "" ++ s = s.
Proof. reflexivity. Qed.

Lemma prefix_append sep s :
  String.prefix sep s = true → s = sep ++ string_drop (String.length sep) s.
Proof.
  revert s. induction sep as [|b sep IH]; intros s Hp; [by destruct s|].
  destruct s as [|a s]; [discriminate Hp|].
  cbn [String.prefix] in Hp. destruct (ascii_dec b a) as [->|]; [|done].
  simpl. rewrite append_cons. f_equal. by apply IH.
Qed.

(** Passing over the rest of a matched separator. *)
Lemma split_go_skip sep (n : nat) cur s :
  (n ≤ String.length s)%nat →
  split_go sep n cur s = split_go sep 0 cur (string_drop n s).
Proof.
  revert s. induction n as [|n IH]; intros s Hn; [by destruct s|].
  destruct s as [|a s]; cbn [String.length] in Hn; [lia|].
  cbn [split_go string_drop]. apply IH. lia.
Qed.

Lemma string_of_rev_cons a cur s :
  string_of_list_ascii (rev (a :: cur)) ++ s
  = string_of_list_ascii (rev cur) ++ String a s.
Proof.
  cbn [rev]. induction (rev cur) as [|b l IH]; [done|].
  simpl. rewrite !append_cons. by rewrite IH.
Qed.

Lemma string_append_empty s : s ++ "" = s.
Proof. induction s as [|a s IH]; [done|]. by rewrite append_cons, IH. Qed.

Lemma string_length_append s t :
  String.length (s ++ t) = (String.length s + String.length t)%nat.
Proof.
  induction s as [|a s IH]; [done|]. rewrite append_cons. simpl.
  by rewrite IH.
Qed.

Lemma concat_cons sep x (l : list string) :
  l ≠ [] → String.concat sep (x :: l) = x ++ sep ++ String.concat sep l.
Proof. by destruct l. Qed.

Lemma split_go_concat sep (m : nat) :
  sep ≠ "" →
  ∀ s cur, (String.length s ≤ m)%nat →
    String.concat sep (split_go sep 0 cur s)
    = string_of_list_ascii (rev cur) ++ s.
Proof.
  intros Hsep. induction m as [|m IH]; intros s cur Hm.
  - destruct s; cbn [String.length] in Hm; [|lia].
    cbn [split_go String.concat]. by rewrite string_append_empty.
  - destruct s as [|a s].
    { cbn [split_go String.concat]. by rewrite string_append_empty. }
    cbn [split_go]. cbn [String.length] in Hm.
    destruct (String.prefix sep (String a s)) eqn:Hp.
    + rewrite concat_cons by apply split_go_nonempty.
      pose proof (prefix_append _ _ Hp) as Hs.
      destruct sep as [|b sep]; [done|].
      simpl in Hs. rewrite append_cons in Hs. injection Hs as Hab Hs.
      subst a.
      assert (String.length sep ≤ String.length s)%nat as Hlen
        by (rewrite Hs, string_length_append; lia).
      replace (String.length (String b sep) - 1)%nat with (String.length sep)
        by (cbn [String.length]; lia).
      rewrite split_go_skip by done.
      rewrite IH.
      * simpl. rewrite append_cons, append_empty_l. by rewrite <- Hs.
      * assert (String.length s
                = String.length sep
                  + String.length (string_drop (String.length sep) s)) as Hl
          by (rewrite Hs at 1; apply string_length_append).
        lia.
    + rewrite IH by lia. apply string_of_rev_cons.
Qed.

Lemma strip_ext_at_prefix s :
  String.prefix "Ext. at " s = true → s = "Ext. at " ++ strip_ext_at s.
Proof.
  intros Hp. unfold strip_ext_at. rewrite Hp. exact (prefix_append _ _ Hp).
Qed.

Lemma strip_ext_at_other s :
  String.prefix "Ext. at " s = false → strip_ext_at s = s.
Proof. intros Hp. unfold strip_ext_at. by rewrite Hp. Qed.

(** [segments.join(sep)] is the text that was split. *)
Lemma js_split_concat s sep :
  sep ≠ "" → String.concat sep (js_split s sep) = s.
Proof.
  intros Hsep. unfold js_split.
  by rewrite (split_go_concat sep (String.length s) Hsep s []).
Qed.

End split_facts.

(** * Properties of filterData *)

Section filter_facts.
Implicit Types (r : row) (q : query) (data : list row).

Lemma elem_of_keys q field : field ∈ keys q ↔ is_Some (q !! field).
Proof.
  unfold keys. rewrite list_elem_of_fmap. split.
  - intros [[k v] [-> Hin]]. apply elem_of_map_to_list in Hin. by exists v.
  - intros [v Hv]. exists (field, v). split; [done|].
    by apply elem_of_map_to_list.
Qed.

(** [every] holds when the callback is truthy at each own key. *)
Lemma row_passes_true q r :
  row_passes q r = true ↔
  ∀ field, is_Some (q !! field) → truthy (field_test r q field) = true.
Proof.
  unfold row_passes. rewrite forallb_forall. split.
  - intros H field Hf. apply H, list_elem_of_In, elem_of_keys, Hf.
  - intros H field Hf. apply H, elem_of_keys, list_elem_of_In, Hf.
Qed.

Lemma existsb_strict_eq (v : value) (vs : list string) :
  existsb (λ s, strict_eq_str v s) vs = true ↔ ∃ s, s ∈ vs ∧ v = VStr s.
Proof.
  rewrite existsb_exists. split.
  - intros (s & Hin & Heq). exists s. split; [by apply list_elem_of_In|].
    destruct v; simpl in Heq; try discriminate.
    by apply String.eqb_eq in Heq as ->.
  - intros (s & Hin & ->). exists s. split; [by apply list_elem_of_In|].
    simpl. apply String.eqb_refl.
Qed.

(** The reserved key makes the callback falsy whatever the row is. *)
Lemma field_test_tab r q : truthy (field_test r q "tab") = false.
Proof. reflexivity. Qed.

Lemma field_test_other r q field accepted :
  field ≠ "tab" → q !! field = Some accepted →
  truthy (field_test r q field) = true ↔
  ∃ s, s ∈ js_split accepted "," ∧ get r field = VStr s.
Proof.
  intros Hne Hq. unfold field_test.
  rewrite bool_decide_eq_true_2 by done. rewrite Hq. simpl.
  apply existsb_strict_eq.
Qed.

Lemma filter_filter_same {A} (p : A → bool) (l : list A) :
  List.filter p (List.filter p l) = List.filter p l.
Proof.
  induction l as [|x l IH]; simpl; [done|].
  destruct (p x) eqn:Hp; simpl; [|done]. by rewrite Hp, IH.
Qed.

Lemma filter_all_true {A} (p : A → bool) (l : list A) :
  (∀ x, p x = true) → List.filter p l = l.
Proof.
  intros Hp. induction l as [|x l IH]; simpl; [done|].
  by rewrite Hp, IH.
Qed.

Lemma filter_all_false {A} (p : A → bool) (l : list A) :
  (∀ x, p x = false) → List.filter p l = [].
Proof.
  intros Hp. induction l as [|x l IH]; simpl; [done|]. by rewrite Hp.
Qed.

(** With the reserved key among the constraints no row is kept. *)
Lemma filterData_tab data q : is_Some (q !! "tab") → filterData data q = [].
Proof.
  intros Htab. apply filter_all_false. intros r.
  destruct (row_passes q r) eqn:Hp; [|done].
  rewrite row_passes_true in Hp. specialize (Hp "tab" Htab).
  by rewrite field_test_tab in Hp.
Qed.

End filter_facts.

Lemma row_passes_spec (q : query) (r : row) :
  q !! "tab" = None → row_passes q r = true ↔ passes_all q r.
Proof.
  intros Htab. rewrite row_passes_true. split.
  - intros H field accepted Hq.
    assert (field ≠ "tab") as Hne by (intros ->; congruence).
    apply (field_test_other r q field accepted Hne Hq), H. eauto.
  - intros H field [accepted Hq].
    assert (field ≠ "tab") as Hne by (intros ->; congruence).
    apply (field_test_other r q field accepted Hne Hq), (H _ _ Hq).
Qed.

(** * The blocks of transformData *)

Ltac run_M :=
  unfold mbind, M_bind, mret, M_ret, throw, read, write, spread,
    call_split, call_replace_ext_at, js_or; simpl.

Lemma truthy_str (s : string) : truthy (VStr s) = negb (String.eqb s "").
Proof. reflexivity. Qed.

Lemma cell_ok_cases (v : value) :
  cell_ok v = true → (∃ s, v = VStr s) ∨ truthy v = false.
Proof.
  destruct v; simpl; eauto; intros H; right; by apply negb_true_iff in H.
Qed.

(** The text the ternary of [convertName] assigns. *)
Lemma name_code_rule (s : string) :
  (let parts := js_split s ", " in
   if truthy (elem parts 1)
   then VStr (template_text (elem parts 1) ++ " " ++ template_text (elem parts 0))
   else VStr "") = VStr (name_rule s).
Proof.
  unfold name_rule. destruct (js_split s ", ") as [|a [|b rest]]; simpl; try done.
  by destruct (String.eqb b "").
Qed.

Ltac block_step Hc Ht :=
  repeat first
    [ done | rewrite Hc | rewrite Ht | progress simpl | progress run_M ].

Lemma convertName_ok l k h :
  cell_ok (get (h !!! l) k) = true →
  convertName l k h = (convert_heap k l h, Ok ()).
Proof.
  intros Hok. unfold convertName, convert_heap. run_M.
  destruct (get (h !!! l) k) as [| |b|x|s|] eqn:Hc; simpl in Hok |- *;
    try discriminate Hok; try done.
  - destruct b; [discriminate Hok | done].
  - apply negb_true_iff in Hok. by rewrite Hok.
  - destruct (String.eqb s "") eqn:Hs; simpl; [done|].
    rewrite Hc. simpl. rewrite Hs. run_M.
    pose proof (name_code_rule s) as Hr. simpl in Hr. by rewrite Hr.
Qed.

Lemma convertName_bad l k h :
  cell_ok (get (h !!! l) k) = false →
  convertName l k h = (h, Throw TypeError).
Proof.
  intros Hok. unfold convertName. run_M.
  destruct (get (h !!! l) k) as [| |b|x|s|] eqn:Hc; simpl in Hok |- *;
    try discriminate Hok.
  - destruct b; [|discriminate Hok]. block_step Hc Hok.
  - apply negb_false_iff in Hok. block_step Hc Hok.
  - block_step Hc Hok.
Qed.

Lemma derive_ok l k h :
  cell_ok (get (h !!! l) k) = true →
  derive l k h = (h, Ok (derived (get (h !!! l) k))).
Proof.
  intros Hok. unfold derive, derived. run_M.
  destruct (get (h !!! l) k) as [| |b|x|s|] eqn:Hc; simpl in Hok |- *;
    try discriminate Hok; try done.
  - destruct b; [discriminate Hok | done].
  - apply negb_true_iff in Hok. by rewrite Hok.
  - destruct (String.eqb s "") eqn:Hs; simpl; [done|].
    rewrite Hc. simpl. rewrite Hs. run_M.
    by destruct (List.length (js_split (strip_ext_at s) " - ")) as [|[|n]].
Qed.

Lemma derive_bad l k h :
  cell_ok (get (h !!! l) k) = false →
  derive l k h = (h, Throw TypeError).
Proof.
  intros Hok. unfold derive. run_M.
  destruct (get (h !!! l) k) as [| |b|x|s|] eqn:Hc; simpl in Hok |- *;
    try discriminate Hok.
  - destruct b; [|discriminate Hok]. block_step Hc Hok.
  - apply negb_false_iff in Hok. block_step Hc Hok.
  - block_step Hc Hok.
Qed.

(** * Rows and stores under the rewriting of a name column *)

Section rows.
Implicit Types (r : row) (h : heap) (l : loc) (k : string).

Lemma get_insert_eq r k v : get (<[k := v]> r) k = v.
Proof. unfold get. by rewrite lookup_insert_eq. Qed.

Lemma get_insert_ne r k k' v : k ≠ k' → get (<[k := v]> r) k' = get r k'.
Proof. intros Hne. unfold get. by rewrite lookup_insert_ne. Qed.

Lemma get_absent r k : r !! k = None → get r k = VObj ∨ get r k = VUndefined.
Proof. intros Hk. unfold get. rewrite Hk. case_bool_decide; eauto. Qed.

Lemma convert_row_lookup_ne r k k' :
  k ≠ k' → convert_row k r !! k' = r !! k'.
Proof.
  intros Hne. unfold convert_row.
  destruct (get r k); try done.
  destruct (String.eqb s ""); [done|]. by rewrite lookup_insert_ne.
Qed.

Lemma convert_row_get_ne r k k' :
  k ≠ k' → get (convert_row k r) k' = get r k'.
Proof. intros Hne. unfold get. by rewrite convert_row_lookup_ne. Qed.

(** A text cell is rewritten by the rule, any other stays. *)
Lemma convert_row_get_str r k s :
  get r k = VStr s → s ≠ "" → get (convert_row k r) k = VStr (name_rule s).
Proof.
  intros Hc Hs. unfold convert_row. rewrite Hc.
  apply String.eqb_neq in Hs. rewrite Hs. apply get_insert_eq.
Qed.

Lemma convert_row_lookup_str r k s :
  get r k = VStr s → s ≠ "" →
  convert_row k r !! k = Some (VStr (name_rule s)).
Proof.
  intros Hc Hs. unfold convert_row. rewrite Hc.
  apply String.eqb_neq in Hs. rewrite Hs. apply lookup_insert_eq.
Qed.

Lemma convert_row_lookup_none r k : r !! k = None → convert_row k r = r.
Proof.
  intros Hk. unfold convert_row.
  by destruct (get_absent r k Hk) as [-> | ->].
Qed.

Lemma convert_row_cell_ok r k k' :
  cell_ok (get (convert_row k r) k') = cell_ok (get r k').
Proof.
  destruct (decide (k = k')) as [<-|Hne];
    [|by rewrite convert_row_get_ne].
  unfold convert_row. destruct (get r k) eqn:Hc; rewrite ?Hc; try done.
  destruct (String.eqb s ""); [by rewrite Hc|]. by rewrite get_insert_eq.
Qed.

Lemma convert_heap_lookup k l h l' :
  convert_heap k l h !!! l' =
  if decide (l' = l) then convert_row k (h !!! l) else h !!! l'.
Proof.
  unfold convert_heap, convert_row.
  destruct (get (h !!! l) k); try (case_decide; by subst).
  destruct (String.eqb s ""); [case_decide; by subst|].
  case_decide as Hl.
  - subst. by rewrite lookup_total_insert_eq.
  - by rewrite lookup_total_insert_ne.
Qed.

End rows.

(** * Several name columns in a row *)

Section name_columns.
Implicit Types (r : row) (h : heap) (l : loc) (k : string) (ks : list string).

Lemma convert_heaps_lookup ks l h l' :
  convert_heaps ks l h !!! l' =
  if decide (l' = l) then convert_rows ks (h !!! l) else h !!! l'.
Proof.
  revert h. induction ks as [|k ks IH]; intros h; simpl.
  - by case_decide; subst.
  - unfold convert_heaps, convert_rows in *. simpl. rewrite IH.
    rewrite !convert_heap_lookup. case_decide; [|done].
    by rewrite decide_True.
Qed.

Lemma convert_rows_cell_ok ks r k :
  cell_ok (get (convert_rows ks r) k) = cell_ok (get r k).
Proof.
  revert r. induction ks as [|k0 ks IH]; intros r; [done|].
  unfold convert_rows in *. simpl. by rewrite IH, convert_row_cell_ok.
Qed.

Lemma convert_rows_cells_ok ks ks' r :
  cells_ok ks' (convert_rows ks r) = cells_ok ks' r.
Proof.
  unfold cells_ok. induction ks' as [|k ks' IH]; simpl; [done|].
  by rewrite IH, convert_rows_cell_ok.
Qed.

Lemma convert_rows_lookup_ne ks r k :
  k ∉ ks → convert_rows ks r !! k = r !! k.
Proof.
  revert r. induction ks as [|k0 ks IH]; intros r Hk; [done|].
  apply not_elem_of_cons in Hk as [Hne Hk].
  unfold convert_rows in *. simpl. rewrite IH by done.
  by apply convert_row_lookup_ne.
Qed.

Lemma convert_row_lookup_absent r k0 k :
  r !! k = None → convert_row k0 r !! k = None.
Proof.
  intros Hk. destruct (decide (k0 = k)) as [->|Hne].
  - by rewrite convert_row_lookup_none.
  - by rewrite convert_row_lookup_ne.
Qed.

(** A column the row does not have is not created. *)
Lemma convert_rows_lookup_absent ks r k :
  r !! k = None → convert_rows ks r !! k = None.
Proof.
  revert r. induction ks as [|k0 ks IH]; intros r Hk; [done|].
  unfold convert_rows in *. simpl. apply IH.
  by apply convert_row_lookup_absent.
Qed.

(** A non-empty text in one of the columns is rewritten by the rule. *)
Lemma convert_rows_lookup_str ks r k s :
  NoDup ks → k ∈ ks → get r k = VStr s → s ≠ "" →
  convert_rows ks r !! k = Some (VStr (name_rule s)).
Proof.
  revert r. induction ks as [|k0 ks IH]; intros r Hnd Hk Hc Hs.
  - by apply elem_of_nil in Hk.
  - apply NoDup_cons in Hnd as [Hk0 Hnd].
    unfold convert_rows in *. simpl.
    apply elem_of_cons in Hk as [->|Hk].
    + fold (convert_rows ks (convert_row k0 r)).
      rewrite convert_rows_lookup_ne by done.
      by apply convert_row_lookup_str.
    + apply IH; try done. rewrite convert_row_get_ne; [done|].
      intros ->. contradiction.
Qed.

End name_columns.

(** * The loop of array_map *)

Section array_map_loop.
Variables (f : loc → M row) (ok : row → bool).
Variables (step : loc → heap → heap) (out : loc → heap → row).
Hypothesis f_ok :
  ∀ l h, ok (h !!! l) = true → f l h = (step l h, Ok (out l h)).
Hypothesis f_bad :
  ∀ l h, ok (h !!! l) = false → ∃ h', f l h = (h', Throw TypeError).
Hypothesis step_ok : ∀ l h l', ok (step l h !!! l') = ok (h !!! l').
Implicit Types (h : heap) (l : loc) (ls : list loc).

Lemma run_heap_ok ls h l' : ok (run_heap step ls h !!! l') = ok (h !!! l').
Proof.
  revert h. induction ls as [|l ls IH]; intros h; [done|].
  unfold run_heap in *. simpl. by rewrite IH, step_ok.
Qed.

Lemma run_outputs_length ls h :
  List.length (run_outputs step out ls h) = List.length ls.
Proof.
  revert h. induction ls as [|l ls IH]; intros h; simpl; [done|].
  by rewrite IH.
Qed.

Lemma run_outputs_lookup ls h i l :
  ls !! i = Some l →
  run_outputs step out ls h !! i = Some (out l (run_heap step (take i ls) h)).
Proof.
  revert h i. induction ls as [|l0 ls IH]; intros h i Hi; [done|].
  destruct i as [|i]; simpl in *.
  - by injection Hi as ->.
  - by rewrite (IH _ _ Hi).
Qed.

(** On rows the callback accepts the loop runs to its end. *)
Lemma array_map_ok ls h :
  Forall (λ l, ok (h !!! l) = true) ls →
  array_map f ls h = (run_heap step ls h, Ok (run_outputs step out ls h)).
Proof.
  revert h. induction ls as [|l ls IH]; intros h Hok; [done|].
  apply Forall_cons in Hok as [Hl Hls]. simpl.
  unfold mbind at 1, M_bind at 1. rewrite (f_ok _ _ Hl).
  unfold mbind at 1, M_bind at 1. rewrite IH; [done|].
  eapply Forall_impl; [exact Hls|]. intros l'. simpl. by rewrite step_ok.
Qed.

(** A row it does not accept ends the loop with a TypeError. *)
Lemma array_map_bad ls h :
  Exists (λ l, ok (h !!! l) = false) ls →
  ∃ h', array_map f ls h = (h', Throw TypeError).
Proof.
  revert h. induction ls as [|l ls IH]; intros h Hbad;
    [by apply Exists_nil in Hbad|].
  simpl. unfold mbind at 1, M_bind at 1.
  destruct (ok (h !!! l)) eqn:Hl.
  - rewrite (f_ok _ _ Hl).
    apply Exists_cons in Hbad as [Hbad|Hbad]; [congruence|].
    destruct (IH (step l h)) as [h' Hh'].
    { eapply Exists_impl; [exact Hbad|]. intros l'. simpl.
      by rewrite step_ok. }
    exists h'. unfold mbind at 1, M_bind at 1. by rewrite Hh'.
  - destruct (f_bad _ _ Hl) as [h' ->]. eauto.
Qed.

Lemma rows_ok_dec ls h :
  Forall (λ l, ok (h !!! l) = true) ls
  ∨ Exists (λ l, ok (h !!! l) = false) ls.
Proof.
  induction ls as [|l ls [IH|IH]].
  - left. constructor.
  - destruct (ok (h !!! l)) eqn:Hl.
    + left. by constructor.
    + right. by apply Exists_cons_hd.
  - right. by apply Exists_cons_tl.
Qed.

Lemma array_map_returns_iff ls h :
  (∃ h' res, array_map f ls h = (h', Ok res))
  ↔ Forall (λ l, ok (h !!! l) = true) ls.
Proof.
  split.
  - intros (h' & res & Hrun).
    destruct (rows_ok_dec ls h) as [Hok|Hbad]; [done|].
    destruct (array_map_bad _ _ Hbad) as [h'' Hthrow]. congruence.
  - intros Hok. rewrite (array_map_ok _ _ Hok). eauto.
Qed.

Lemma array_map_throws_iff ls h :
  (∃ h', array_map f ls h = (h', Throw TypeError))
  ↔ Exists (λ l, ok (h !!! l) = false) ls.
Proof.
  split; [|apply array_map_bad].
  intros [h' Hthrow].
  destruct (rows_ok_dec ls h) as [Hok|Hbad]; [|done].
  rewrite (array_map_ok _ _ Hok) in Hthrow. discriminate.
Qed.

End array_map_loop.

(** * The callbacks of the two variants *)

Section callbacks.
Implicit Types (v : schema) (r : row) (h : heap) (l : loc) (ls : list loc).

(** The cell a later [convertName] tests is accepted as it was in the
    row the callback started on. *)
Ltac later_cell H :=
  repeat (rewrite convert_heap_lookup, decide_True by done);
  rewrite ?convert_row_cell_ok; exact H.

(** One block of the callback in a run that returns. *)
Ltac derive_returns H :=
  unfold mbind at 1, M_bind at 1; rewrite (derive_ok _ _ _ H).
Ltac convertName_returns H :=
  unfold mbind at 1, M_bind at 1;
  rewrite convertName_ok; [|later_cell H].

Lemma row_ok_unfold v r :
  row_ok v r =
  match v with
  | Single =>
      cell_ok (get r "Primary Opp")
      && (cell_ok (get r "Name") && (cell_ok (get r "Primary Owner") && true))
  | Dual =>
      cell_ok (get r "Primary Opp")
      && (cell_ok (get r "Current Eng.")
          && (cell_ok (get r "Name")
              && (cell_ok (get r "Primary Owner")
                  && (cell_ok (get r "Current Owner")
                      && (cell_ok (get r "Manager") && true)))))
  end.
Proof. by destruct v. Qed.

Lemma transformRow_ok v l h :
  row_ok v (h !!! l) = true →
  transformRow_of v l h = (row_heap v l h, Ok (output v l h)).
Proof.
  rewrite row_ok_unfold. destruct v; rewrite !andb_true_iff.
  - intros (Hopp & Hname & Hown & _).
    unfold transformRow_of, Index.transformRow, output.
    derive_returns Hopp.
    destruct (derived (get (h !!! l) "Primary Opp")) as [[t client] project].
    convertName_returns Hname. convertName_returns Hown. done.
  - intros (Hopp & Heng & Hname & Hown & Hcur & Hman & _).
    unfold transformRow_of, Part000.transformRow, output.
    derive_returns Hopp.
    destruct (derived (get (h !!! l) "Primary Opp")) as [[t1 c1] p1].
    derive_returns Heng.
    destruct (derived (get (h !!! l) "Current Eng.")) as [[t2 c2] p2].
    convertName_returns Hname. convertName_returns Hown.
    convertName_returns Hcur. convertName_returns Hman. done.
Qed.

(** One block of the callback in any run: it returns, and the run goes
    on, or it throws, and the run is over. *)
Ltac derive_either h l k :=
  unfold mbind at 1, M_bind at 1;
  let H := fresh "Hcell" in
  destruct (cell_ok (get (h !!! l) k)) eqn:H;
  [rewrite (derive_ok _ _ _ H) | rewrite (derive_bad _ _ _ H); eauto].
Ltac convertName_either h l k :=
  unfold mbind at 1, M_bind at 1;
  let H := fresh "Hcell" in
  destruct (cell_ok (get (h !!! l) k)) eqn:H;
  [rewrite convertName_ok; [|later_cell H]
  |rewrite convertName_bad; [eauto|later_cell H]].

Lemma transformRow_bad v l h :
  row_ok v (h !!! l) = false →
  ∃ h', transformRow_of v l h = (h', Throw TypeError).
Proof.
  rewrite row_ok_unfold. destruct v; intros Hbad.
  - unfold transformRow_of, Index.transformRow.
    derive_either h l "Primary Opp".
    destruct (derived (get (h !!! l) "Primary Opp")) as [[t client] project].
    convertName_either h l "Name".
    convertName_either h l "Primary Owner".
    discriminate Hbad.
  - unfold transformRow_of, Part000.transformRow.
    derive_either h l "Primary Opp".
    destruct (derived (get (h !!! l) "Primary Opp")) as [[t1 c1] p1].
    derive_either h l "Current Eng.".
    destruct (derived (get (h !!! l) "Current Eng.")) as [[t2 c2] p2].
    convertName_either h l "Name".
    convertName_either h l "Primary Owner".
    convertName_either h l "Current Owner".
    convertName_either h l "Manager".
    discriminate Hbad.
Qed.

Lemma row_heap_lookup v l h l' :
  row_heap v l h !!! l' =
  if decide (l' = l) then convert_rows (names v) (h !!! l) else h !!! l'.
Proof. apply convert_heaps_lookup. Qed.

Lemma row_heap_row_ok v l h l' :
  row_ok v (row_heap v l h !!! l') = row_ok v (h !!! l').
Proof.
  rewrite row_heap_lookup. case_decide; [subst|done].
  apply convert_rows_cells_ok.
Qed.

(** The callback leaves every column but the name columns as it found
    it, and every other row too. *)
Lemma row_heap_other v l h l' k :
  k ∉ names v → (row_heap v l h !!! l') !! k = (h !!! l') !! k.
Proof.
  intros Hk. rewrite row_heap_lookup. case_decide; [subst|done].
  by apply convert_rows_lookup_ne.
Qed.

Lemma row_heap_frame v l h l' : l' ≠ l → row_heap v l h !!! l' = h !!! l'.
Proof. intros Hne. rewrite row_heap_lookup. by rewrite decide_False. Qed.

Lemma run_heap_other v ls h l' k :
  k ∉ names v → (run_heap (row_heap v) ls h !!! l') !! k = (h !!! l') !! k.
Proof.
  intros Hk. revert h. induction ls as [|l ls IH]; intros h; [done|].
  unfold run_heap in *. simpl. by rewrite IH, row_heap_other.
Qed.

(** Rows that are not in the array are not touched. *)
Lemma run_heap_frame v ls h l' :
  l' ∉ ls → run_heap (row_heap v) ls h !!! l' = h !!! l'.
Proof.
  revert h. induction ls as [|l ls IH]; intros h Hnin; [done|].
  apply not_elem_of_cons in Hnin as [Hne Hnin].
  unfold run_heap in *. simpl. by rewrite IH, row_heap_frame.
Qed.

(** The loop of either variant, in closed form. *)
Lemma transformData_ok v ls h :
  Forall (λ l, row_ok v (h !!! l) = true) ls →
  transformData_of v ls h
  = (run_heap (row_heap v) ls h,
     Ok (run_outputs (row_heap v) (output v) ls h)).
Proof.
  intros Hok.
  assert (transformData_of v = array_map (transformRow_of v)) as ->
    by by destruct v.
  apply (array_map_ok _ (row_ok v)); [|apply row_heap_row_ok|done].
  apply transformRow_ok.
Qed.

Lemma transformData_bad v ls h :
  Exists (λ l, row_ok v (h !!! l) = false) ls →
  ∃ h', transformData_of v ls h = (h', Throw TypeError).
Proof.
  intros Hbad.
  assert (transformData_of v = array_map (transformRow_of v)) as ->
    by by destruct v.
  eapply (array_map_bad _ (row_ok v));
    eauto using transformRow_ok, transformRow_bad, row_heap_row_ok.
Qed.

End callbacks.

(** * The object the callback returns *)

Section outputs.
Implicit Types (v : schema) (r : row) (h : heap) (l : loc) (ls : list loc).

Lemma derived_composite_spec (cell : value) :
  ∃ t, derived cell
       = (t, VStr (composite_spec cell).1, VStr (composite_spec cell).2).
Proof.
  unfold derived, composite_spec. destruct cell; cbn [fst snd]; eauto.
  destruct (String.eqb s ""); cbn [fst snd]; eauto.
  destruct (js_split (strip_ext_at s) " - ") as [|a [|b rest]];
    cbn [fst snd List.length Nat.leb elem]; eauto.
Qed.

Lemma composite_spec_rule (cell : value) (client project : option value) :
  client = Some (VStr (composite_spec cell).1) →
  project = Some (VStr (composite_spec cell).2) →
  composite_rule cell client project.
Proof.
  intros -> ->. unfold composite_rule, composite_spec. split.
  - intros s -> Hne. apply String.eqb_neq in Hne. rewrite Hne.
    by destruct (js_split (strip_ext_at s) " - ") as [|a [|b rest]].
  - intros Hf. destruct cell; try done.
    rewrite truthy_str in Hf. apply negb_false_iff in Hf. by rewrite Hf.
Qed.

Lemma output_client_project v l h :
  output v l h !! "Client"
    = Some (VStr (composite_spec (get (h !!! l) (client_source v))).1)
  ∧ output v l h !! "Project"
    = Some (VStr (composite_spec (get (h !!! l) (client_source v))).2).
Proof.
  unfold output. destruct v; cbn [client_source].
  - destruct (derived_composite_spec (get (h !!! l) "Primary Opp"))
      as [t ->].
    split; [|by rewrite lookup_insert_eq].
    rewrite lookup_insert_ne by done. by rewrite lookup_insert_eq.
  - destruct (derived (get (h !!! l) "Primary Opp")) as [[t1 c1] p1].
    destruct (derived_composite_spec (get (h !!! l) "Current Eng."))
      as [t ->].
    split.
    + do 4 (rewrite lookup_insert_ne by done). by rewrite lookup_insert_eq.
    + do 3 (rewrite lookup_insert_ne by done). by rewrite lookup_insert_eq.
Qed.

(** With two composite columns [Primary Opp] feeds the next
    engagement. *)
Lemma output_next l h :
  output Dual l h !! "NextClient"
    = Some (VStr (composite_spec (get (h !!! l) "Primary Opp")).1)
  ∧ output Dual l h !! "NextProject"
    = Some (VStr (composite_spec (get (h !!! l) "Primary Opp")).2).
Proof.
  unfold output.
  destruct (derived_composite_spec (get (h !!! l) "Primary Opp"))
    as [t ->].
  destruct (derived (get (h !!! l) "Current Eng.")) as [[t2 c2] p2].
  split; [|by rewrite lookup_insert_eq].
  rewrite lookup_insert_ne by done. by rewrite lookup_insert_eq.
Qed.

(** Apart from the derived columns the returned object is the row as
    the callback leaves it. *)
Lemma output_other v l h k :
  k ∉ derived_keys v →
  output v l h !! k = (row_heap v l h !!! l) !! k.
Proof.
  unfold output. destruct v; cbn [derived_keys]; intros Hk.
  - destruct (derived (get (h !!! l) "Primary Opp")) as [[t c] p].
    rewrite !not_elem_of_cons in Hk. destruct Hk as (? & ? & _).
    by rewrite !lookup_insert_ne.
  - destruct (derived (get (h !!! l) "Primary Opp")) as [[t1 c1] p1].
    destruct (derived (get (h !!! l) "Current Eng.")) as [[t2 c2] p2].
    rewrite !not_elem_of_cons in Hk.
    destruct Hk as (? & ? & ? & ? & ? & ? & _).
    by rewrite !lookup_insert_ne.
Qed.

Lemma names_NoDup v : NoDup (names v).
Proof. destruct v; compute_done. Qed.

Lemma names_not_derived v k : k ∈ names v → k ∉ derived_keys v.
Proof.
  revert k. apply Forall_forall. destruct v; compute_done.
Qed.

Lemma composites_not_names v k : k ∈ composites v → k ∉ names v.
Proof.
  revert k. apply Forall_forall. destruct v; compute_done.
Qed.

Lemma output_name_str v l h k s :
  k ∈ names v → get (h !!! l) k = VStr s → s ≠ "" →
  output v l h !! k = Some (VStr (name_rule s)).
Proof.
  intros Hk Hc Hs.
  rewrite output_other by by apply names_not_derived.
  rewrite row_heap_lookup, decide_True by done.
  by apply convert_rows_lookup_str; [apply names_NoDup|..].
Qed.

Lemma output_name_absent v l h k :
  k ∈ names v → (h !!! l) !! k = None → output v l h !! k = None.
Proof.
  intros Hk Hc.
  rewrite output_other by by apply names_not_derived.
  rewrite row_heap_lookup, decide_True by done.
  by apply convert_rows_lookup_absent.
Qed.

(** The callback finds a row that did not occur earlier in the array as
    the caller handed it over. *)
Lemma NoDup_before ls i l : NoDup ls → ls !! i = Some l → l ∉ take i ls.
Proof.
  intros Hnd Hi Hin.
  rewrite <- (take_drop_middle ls i l Hi) in Hnd.
  apply NoDup_app in Hnd as (_ & Hdisj & _).
  apply (Hdisj l Hin). by left.
Qed.

End outputs.

(** * The filter: what the specification says of it *)

(** C1, as the code has it.  The claim reads the reserved key [tab] as a
    test that every row passes, so that filtering with it equals
    filtering by the remaining keys.  The callback of [every] returns
    nothing for that key, [every] takes the [undefined] for a failed test,
    and no row is kept: here the one row is dropped, while the remaining
    (empty) constraints keep it. *)
Theorem filterData_tab_key_drops_rows :
  let data := [ ({[ "Region" := VStr "East" ]} : row) ] in
  let queryParams : query := {[ "tab" := "Sheet1" ]} in
  filterData data queryParams = []
  ∧ filterData data (delete "tab" queryParams) = data.
Proof. split; vm_compute; reflexivity. Qed.

(** C3: without the reserved key, [filterData] keeps exactly the rows, in
    their order, that pass every constraint key, and a row passes a key
    when its cell in that column is strictly equal to one of the values
    the constraint lists between commas. *)
Theorem filterData_and_or (data : list row) (q : query) :
  q !! "tab" = None →
  (∃ keep : row → bool,
      filterData data q = List.filter keep data
      ∧ ∀ r, keep r = true ↔ passes_all q r)
  ∧ ∀ r, r ∈ filterData data q ↔ r ∈ data ∧ passes_all q r.
Proof.
  intros Htab. split.
  - exists (row_passes q). split; [done|].
    intros r. by apply row_passes_spec.
  - intros r. unfold filterData.
    by rewrite !list_elem_of_In, filter_In, (row_passes_spec q r Htab).
Qed.

Lemma filterData_and_or_witness :
  let data : list row :=
    [ {[ "Region" := VStr "East"; "Status" := VStr "Active" ]};
      {[ "Region" := VStr "West"; "Status" := VStr "Active" ]} ] in
  let q : query := {[ "Region" := "East,West"; "Status" := "Active" ]} in
  q !! "tab" = None
  ∧ ((∃ keep : row → bool,
        filterData data q = List.filter keep data
        ∧ ∀ r, keep r = true ↔ passes_all q r)
     ∧ ∀ r, r ∈ filterData data q ↔ r ∈ data ∧ passes_all q r).
Proof.
  intros data q.
  assert (q !! "tab" = None) as Htab by (vm_compute; reflexivity).
  split; [exact Htab|]. exact (filterData_and_or data q Htab).
Defined.

(** C6: filtering twice by the same constraints gives what filtering once
    gives. *)
Theorem filterData_idempotent (data : list row) (q : query) :
  filterData (filterData data q) q = filterData data q.
Proof. apply filter_filter_same. Qed.

(** C8: the empty constraint mapping keeps every row, in the same
    order. *)
Theorem filterData_empty_constraints (data : list row) :
  filterData data ∅ = data.
Proof.
  apply filter_all_true. intros r. unfold row_passes, keys.
  by rewrite map_to_list_empty.
Qed.

(** C9: a row that lacks the column of a constraint key other than the
    reserved one is not in the result, which is produced all the same. *)
Theorem filterData_missing_column
    (data : list row) (q : query) (field accepted : string) (r : row) :
  q !! field = Some accepted → field ≠ "tab" → r !! field = None →
  (r ∉ filterData data q)
  ∧ ∃ kept, filterData data q = kept ∧ sublist kept data.
Proof.
  intros Hq Hne Hr. split.
  - intros Hin. unfold filterData in Hin.
    apply list_elem_of_In, filter_In in Hin as [_ Hpass].
    rewrite row_passes_true in Hpass.
    specialize (Hpass field (ex_intro _ accepted Hq)).
    apply (field_test_other r q field accepted Hne Hq) in Hpass
      as (s & _ & Hs).
    destruct (get_absent r field Hr) as [Hg|Hg]; congruence.
  - eexists. split; [done|]. unfold filterData.
    induction data as [|x data IH]; simpl; [done|].
    destruct (row_passes q x); by constructor.
Qed.

Lemma filterData_missing_column_witness :
  let data : list row :=
    [ {[ "Region" := VStr "East" ]}; {[ "Status" := VStr "Active" ]} ] in
  let q : query := {[ "Region" := "East,West" ]} in
  let r : row := {[ "Status" := VStr "Active" ]} in
  q !! "Region" = Some "East,West" ∧ "Region" ≠ "tab" ∧ r !! "Region" = None
  ∧ (r ∉ filterData data q)
  ∧ ∃ kept, filterData data q = kept ∧ sublist kept data.
Proof.
  intros data q r.
  assert (q !! "Region" = Some "East,West") as Hq by (vm_compute; reflexivity).
  assert ("Region" ≠ "tab") as Hne by discriminate.
  assert (r !! "Region" = None) as Hr by (vm_compute; reflexivity).
  split; [exact Hq|]. split; [exact Hne|]. split; [exact Hr|].
  exact (filterData_missing_column data q "Region" "East,West" r Hq Hne Hr).
Defined.

(** * The transformer: what the specification says of it *)

Section transform_claims.
Implicit Types (v : schema) (r : row) (h : heap) (l : loc) (ls : list loc).

(** C2, where it fails: a cell that holds a number is within the rows
    the claim speaks of, and in the column [Name] it makes
    [transformData] throw, since a number has no [split]. *)
Lemma transformData_number_cell_throws :
  let h : heap := {[ 0 := {[ "Name" := VNum 42%float ]} ]} in
  (Index.transformData [0] h).2 = Throw TypeError
  ∧ (Part000.transformData [0] h).2 = Throw TypeError.
Proof. split; vm_compute; reflexivity. Qed.

(** C2, amended: in either variant [transformData] returns a result
    exactly when, in every row, each composite and person-name cell the
    variant reads is a string or is falsy (absent, empty, zero), whatever
    the other cells hold, and throws a TypeError otherwise; [filterData]
    returns a sub-sequence of its rows for every row sequence and every
    string-valued constraint mapping. *)
Theorem transformData_filterData_total v ls h (data : list row) (q : query) :
  ((∃ h' out, transformData_of v ls h = (h', Ok out))
     ↔ Forall (λ l, row_ok v (h !!! l) = true) ls)
  ∧ ((∃ h', transformData_of v ls h = (h', Throw TypeError))
     ↔ Exists (λ l, row_ok v (h !!! l) = false) ls)
  ∧ ∃ kept, filterData data q = kept ∧ sublist kept data.
Proof.
  assert (transformData_of v = array_map (transformRow_of v)) as ->
    by by destruct v.
  split; [|split].
  - eapply (array_map_returns_iff _ (row_ok v));
      eauto using transformRow_ok, transformRow_bad, row_heap_row_ok.
  - eapply (array_map_throws_iff _ (row_ok v));
      eauto using transformRow_ok, transformRow_bad, row_heap_row_ok.
  - eexists. split; [done|]. unfold filterData.
    induction data as [|x data IH]; cbn [List.filter]; [done|].
    destruct (row_passes q x); by constructor.
Qed.

(** C7, where it fails: for the one row whose [Name] holds a number
    [transformData] returns no array at all, in either variant, so there
    is no output with one row for the row of the input. *)
Lemma transformData_number_cell_no_output :
  let h : heap := {[ 0 := {[ "Name" := VNum 42%float ]} ]} in
  ¬ (∃ h' out, Index.transformData [0] h = (h', Ok out)
               ∧ List.length out = List.length [0])
  ∧ ¬ (∃ h' out, Part000.transformData [0] h = (h', Ok out)
                 ∧ List.length out = List.length [0]).
Proof.
  split; intros (h' & out & Hrun & _);
    apply (f_equal snd) in Hrun; vm_compute in Hrun; discriminate Hrun.
Qed.

(** C7, amended: on the row sequences on which it returns, those where
    each composite and person-name cell the variant reads is a string or
    is falsy, [transformData] returns an array with one row for each row
    of its argument, in the same order: the row at an index is what the
    callback returns for the argument's row at that index, run in the
    store the rows before it have left.  On every other row sequence it
    throws a TypeError and there is no output. *)
Theorem transformData_length_order v ls h :
  (Forall (λ l, row_ok v (h !!! l) = true) ls →
   ∃ h' out,
     transformData_of v ls h = (h', Ok out)
     ∧ List.length out = List.length ls
     ∧ ∀ i l, ls !! i = Some l →
         ∃ hi' o,
           transformRow_of v l (transformData_of v (take i ls) h).1
             = (hi', Ok o)
           ∧ out !! i = Some o)
  ∧ (¬ Forall (λ l, row_ok v (h !!! l) = true) ls →
     ∃ h', transformData_of v ls h = (h', Throw TypeError)).
Proof.
  split.
  - intros Hok. rewrite (transformData_ok _ _ _ Hok).
    eexists _, _. split; [reflexivity|].
    split; [apply run_outputs_length|].
    intros i l Hi.
    rewrite (transformData_ok v (take i ls) h) by by apply Forall_take.
    cbn [fst]. eexists _, _. split; [|by apply run_outputs_lookup].
    apply transformRow_ok.
    rewrite (run_heap_ok (row_ok v)) by apply row_heap_row_ok.
    by apply (proj1 (Forall_lookup _ _) Hok i l).
  - intros Hnot.
    destruct (rows_ok_dec (row_ok v) ls h) as [Hok|Hbad]; [done|].
    by apply transformData_bad.
Qed.

Lemma transformData_length_order_witness :
  let h : heap :=
    {[ 0 := {[ "Name" := VStr "Doe, Jane" ]};
       1 := {[ "Name" := VStr "Roe, Richard" ]} ]} in
  let h2 : heap := {[ 0 := {[ "Name" := VNum 42%float ]} ]} in
  (Forall (λ l, row_ok Single (h !!! l) = true) [1; 0]
   ∧ ∃ h' out,
       transformData_of Single [1; 0] h = (h', Ok out)
       ∧ List.length out = List.length [1; 0]
       ∧ ∀ i l, [1; 0] !! i = Some l →
           ∃ hi' o,
             transformRow_of Single l
               (transformData_of Single (take i [1; 0]) h).1 = (hi', Ok o)
             ∧ out !! i = Some o)
  ∧ (¬ Forall (λ l, row_ok Single (h2 !!! l) = true) [0]
     ∧ ∃ h', transformData_of Single [0] h2 = (h', Throw TypeError)).
Proof.
  intros h h2.
  assert (Forall (λ l, row_ok Single (h !!! l) = true) [1; 0]) as Hok
    by (repeat constructor; vm_compute; reflexivity).
  assert (¬ Forall (λ l, row_ok Single (h2 !!! l) = true) [0]) as Hbad.
  { intros Hall. apply Forall_cons_1 in Hall as [Hrow _].
    vm_compute in Hrow. discriminate Hrow. }
  split.
  - split; [assumption|].
    exact (proj1 (transformData_length_order Single [1; 0] h) Hok).
  - split; [assumption|].
    exact (proj2 (transformData_length_order Single [0] h2) Hbad).
Defined.

(** C4, where it fails: with two composite columns a [Primary Opp] that
    splits into [Acme] and [Widget] leaves [Client] and [Project] empty;
    the two segments go to [NextClient] and [NextProject]. *)
Lemma transformData_primary_opp_next_client :
  let h : heap := {[ 0 := {[ "Primary Opp" := VStr "Ext. at Acme - Widget" ]} ]} in
  js_split (strip_ext_at "Ext. at Acme - Widget") " - " = ["Acme"; "Widget"]
  ∧ (Part000.transformData [0] h).2
    = Ok [ {[ "Primary Opp" := VStr "Ext. at Acme - Widget";
              "ClientProject" := VStr "";
              "Client" := VStr "";
              "Project" := VStr "";
              "NextClientOpp" := VStr "Acme - Widget";
              "NextClient" := VStr "Acme";
              "NextProject" := VStr "Widget" ]} ].
Proof. split; vm_compute; reflexivity. Qed.

(** C4, amended: a composite cell that is a non-empty text loses a
    leading [Ext. at ] and is split on [ - ]; two or more segments give
    segment 0 and segment 1, the further ones being dropped, and fewer
    segments, like a missing or empty cell, give two empty texts, with no
    error.  With the one composite column, [Primary Opp] gives [Client]
    and [Project] in this way; with the two, [Current Eng.] gives [Client]
    and [Project], and [Primary Opp] gives [NextClient] and
    [NextProject]. *)
Theorem transformData_client_project v ls h :
  Forall (λ l, row_ok v (h !!! l) = true) ls →
  ∃ h' out,
    transformData_of v ls h = (h', Ok out)
    ∧ ∀ i l, ls !! i = Some l →
        ∃ o, out !! i = Some o
          ∧ match v with
            | Single =>
                composite_rule (get (h !!! l) "Primary Opp")
                  (o !! "Client") (o !! "Project")
            | Dual =>
                composite_rule (get (h !!! l) "Current Eng.")
                  (o !! "Client") (o !! "Project")
                ∧ composite_rule (get (h !!! l) "Primary Opp")
                    (o !! "NextClient") (o !! "NextProject")
            end.
Proof.
  intros Hok. rewrite (transformData_ok _ _ _ Hok). eexists _, _.
  split; [done|]. intros i l Hi. eexists.
  split; [by apply run_outputs_lookup|].
  set (hi := run_heap (row_heap v) (take i ls) h).
  assert (∀ k, k ∈ composites v → get (hi !!! l) k = get (h !!! l) k)
    as Hsame.
  { intros k Hk. unfold get, hi.
    by rewrite run_heap_other by by apply composites_not_names. }
  destruct (output_client_project v l hi) as [Hc Hp].
  destruct v; cbn [client_source] in Hc, Hp.
  - rewrite Hsame in Hc, Hp by compute_done.
    by apply composite_spec_rule.
  - rewrite Hsame in Hc, Hp by compute_done.
    split; [by apply composite_spec_rule|].
    destruct (output_next l hi) as [Hnc Hnp].
    rewrite Hsame in Hnc, Hnp by compute_done.
    by apply composite_spec_rule.
Qed.

Lemma transformData_client_project_witness :
  let h : heap :=
    {[ 0 := {[ "Primary Opp" := VStr "Ext. at Acme - Widget - 2024" ]};
       1 := {[ "Primary Opp" := VStr "Acme Only" ]};
       2 := {[ "Name" := VStr "Doe, Jane" ]} ]} in
  Forall (λ l, row_ok Single (h !!! l) = true) [0; 1; 2]
  ∧ ∃ h' out,
      transformData_of Single [0; 1; 2] h = (h', Ok out)
      ∧ ∀ i l, [0; 1; 2] !! i = Some l →
          ∃ o, out !! i = Some o
            ∧ composite_rule (get (h !!! l) "Primary Opp")
                (o !! "Client") (o !! "Project").
Proof.
  intros h.
  assert (Forall (λ l, row_ok Single (h !!! l) = true) [0; 1; 2]) as Hok
    by (repeat constructor; vm_compute; reflexivity).
  split; [exact Hok|].
  exact (transformData_client_project Single [0; 1; 2] h Hok).
Defined.

(** C5, where it fails: in [Doe, ] the delimiter is there and the
    right-hand segment exists, as the empty text; the claim makes the
    value [<right> <left>], that is [ Doe], and the code, which tests the
    right-hand segment for truthiness, makes it the empty text. *)
Lemma transformData_name_empty_right_segment :
  let h : heap := {[ 0 := {[ "Name" := VStr "Doe, " ]} ]} in
  js_split "Doe, " ", " = ["Doe"; ""]
  ∧ name_spec "Doe, " = " Doe"
  ∧ (Index.transformData [0] h).2
    = Ok [ {[ "Name" := VStr ""; "Client" := VStr "";
              "Project" := VStr "" ]} ].
Proof. repeat split; vm_compute; reflexivity. Qed.

(** A row object that occurs twice in the array is rewritten twice: the
    second time the callback finds the name already turned round. *)
Example transformData_repeated_row :
  let h : heap := {[ 0 := {[ "Name" := VStr "Doe, Jane" ]} ]} in
  (Index.transformData [0; 0] h).2
  = Ok [ {[ "Name" := VStr "Jane Doe"; "Client" := VStr "";
            "Project" := VStr "" ]};
         {[ "Name" := VStr ""; "Client" := VStr "";
            "Project" := VStr "" ]} ].
Proof. vm_compute. reflexivity. Qed.

(** C5, amended: for each person-name column of the variant ([Name] and
    [Primary Owner]; with two composite columns [Current Owner] and
    [Manager] as well), a cell that is a non-empty text when the callback
    reaches the row (it is the caller's unless the same row object came
    earlier in the array) is split on [, ]; when segment 1 exists and is
    not empty the value becomes [<segment 1> <segment 0>], and when there
    is no delimiter or segment 1 is empty it becomes the empty text; a
    name column the row does not have is not in the output row either. *)
Theorem transformData_names v ls h :
  Forall (λ l, row_ok v (h !!! l) = true) ls →
  ∃ h' out,
    transformData_of v ls h = (h', Ok out)
    ∧ ∀ i l k, ls !! i = Some l → k ∈ names v →
        ∃ o, out !! i = Some o
          ∧ let r := (transformData_of v (take i ls) h).1 !!! l in
            (l ∉ take i ls → r = h !!! l)
            ∧ (∀ s, get r k = VStr s → s ≠ "" →
                 match js_split s ", " with
                 | segment0 :: segment1 :: _ =>
                     if String.eqb segment1 ""
                     then o !! k = Some (VStr "")
                     else o !! k = Some (VStr (segment1 ++ " " ++ segment0))
                 | _ => o !! k = Some (VStr "")
                 end)
            ∧ (r !! k = None → o !! k = None).
Proof.
  intros Hok. rewrite (transformData_ok _ _ _ Hok). eexists _, _.
  split; [done|]. intros i l k Hi Hk. eexists.
  split; [by apply run_outputs_lookup|].
  rewrite (transformData_ok v (take i ls) h) by by apply Forall_take.
  cbn [fst]. split; [apply run_heap_frame|]. split.
  - intros s Hs Hne. rewrite (output_name_str v l _ k s Hk Hs Hne).
    unfold name_rule.
    destruct (js_split s ", ") as [|a [|b rest]]; try done.
    by destruct (String.eqb b "").
  - intros Habs. by apply output_name_absent.
Qed.

Lemma transformData_names_witness :
  let h : heap :=
    {[ 0 := {[ "Name" := VStr "Doe, Jane"; "Primary Owner" := VStr "Solo" ]};
       1 := {[ "Name" := VStr "Doe, " ]} ]} in
  Forall (λ l, row_ok Single (h !!! l) = true) [0; 1]
  ∧ ∃ h' out,
      transformData_of Single [0; 1] h = (h', Ok out)
      ∧ ∀ i l k, [0; 1] !! i = Some l → k ∈ names Single →
          ∃ o, out !! i = Some o
            ∧ let r := (transformData_of Single (take i [0; 1]) h).1 !!! l in
              (l ∉ take i [0; 1] → r = h !!! l)
              ∧ (∀ s, get r k = VStr s → s ≠ "" →
                   match js_split s ", " with
                   | segment0 :: segment1 :: _ =>
                       if String.eqb segment1 ""
                       then o !! k = Some (VStr "")
                       else o !! k = Some (VStr (segment1 ++ " " ++ segment0))
                   | _ => o !! k = Some (VStr "")
                   end)
              ∧ (r !! k = None → o !! k = None).
Proof.
  intros h.
  assert (Forall (λ l, row_ok Single (h !!! l) = true) [0; 1]) as Hok
    by (repeat constructor; vm_compute; reflexivity).
  split; [exact Hok|]. exact (transformData_names Single [0; 1] h Hok).
Defined.

(** C10, where it fails: with two composite columns the row's old
    [Client] is overwritten, but by what [Current Eng.] gives (nothing
    here), not by the [Acme] that [Primary Opp] gives. *)
Lemma transformData_client_not_from_primary_opp :
  let h : heap :=
    {[ 0 := {[ "Primary Opp" := VStr "Ext. at Acme - Widget";
               "Client" := VStr "Old client" ]} ]} in
  composite_spec (VStr "Ext. at Acme - Widget") = ("Acme", "Widget")
  ∧ (Part000.transformData [0] h).2
    = Ok [ {[ "Primary Opp" := VStr "Ext. at Acme - Widget";
              "ClientProject" := VStr "";
              "Client" := VStr "";
              "Project" := VStr "";
              "NextClientOpp" := VStr "Acme - Widget";
              "NextClient" := VStr "Acme";
              "NextProject" := VStr "Widget" ]} ].
Proof. split; vm_compute; reflexivity. Qed.

(** C10, amended: whatever a row holds in [Client] and [Project], the
    output row's [Client] and [Project] are the values freshly derived
    from the composite column of the variant, [Primary Opp] with the one
    composite column and [Current Eng.] with the two, and are empty texts
    when none can be derived. *)
Theorem transformData_overwrites_client_project v ls h :
  Forall (λ l, row_ok v (h !!! l) = true) ls →
  ∃ h' out,
    transformData_of v ls h = (h', Ok out)
    ∧ ∀ i l, ls !! i = Some l →
        ∃ o, out !! i = Some o
          ∧ o !! "Client"
            = Some (VStr (composite_spec (get (h !!! l) (client_source v))).1)
          ∧ o !! "Project"
            = Some (VStr (composite_spec (get (h !!! l) (client_source v))).2).
Proof.
  intros Hok. rewrite (transformData_ok _ _ _ Hok). eexists _, _.
  split; [done|]. intros i l Hi. eexists.
  split; [by apply run_outputs_lookup|].
  pose proof (output_client_project v l
                (run_heap (row_heap v) (take i ls) h)) as Hcp.
  unfold get in Hcp |- *. rewrite run_heap_other in Hcp; [done|].
  apply composites_not_names. destruct v; compute_done.
Qed.

Lemma transformData_overwrites_client_project_witness :
  let h : heap :=
    {[ 0 := {[ "Current Eng." := VStr "Ext. at Acme - Widget";
               "Client" := VStr "Old client"; "Project" := VNum 7%float ]};
       1 := {[ "Client" := VStr "Old client" ]} ]} in
  Forall (λ l, row_ok Dual (h !!! l) = true) [0; 1]
  ∧ ∃ h' out,
      transformData_of Dual [0; 1] h = (h', Ok out)
      ∧ ∀ i l, [0; 1] !! i = Some l →
          ∃ o, out !! i = Some o
            ∧ o !! "Client"
              = Some (VStr (composite_spec (get (h !!! l) "Current Eng.")).1)
            ∧ o !! "Project"
              = Some (VStr (composite_spec (get (h !!! l) "Current Eng.")).2).
Proof.
  intros h.
  assert (Forall (λ l, row_ok Dual (h !!! l) = true) [0; 1]) as Hok
    by (repeat constructor; vm_compute; reflexivity).
  split; [exact Hok|].
  exact (transformData_overwrites_client_project Dual [0; 1] h Hok).
Defined.

End transform_claims.

(** * More on the filter *)

Section filter_more.
Implicit Types (r : row) (q : query) (data : list row).

Lemma filter_filter_and {A} (p p' : A → bool) (l : list A) :
  List.filter p' (List.filter p l) = List.filter (λ x, p x && p' x) l.
Proof.
  induction l as [|x l IH]; [done|]. cbn [List.filter].
  destruct (p x) eqn:Hp; cbn [List.filter andb]; rewrite ?Hp, IH; done.
Qed.

Lemma filter_ext_bool {A} (p p' : A → bool) (l : list A) :
  (∀ x, p x = p' x) → List.filter p l = List.filter p' l.
Proof.
  intros Hp. induction l as [|x l IH]; [done|]. cbn [List.filter].
  by rewrite Hp, IH.
Qed.

Lemma bool_eq_iff (a b : bool) : (a = true ↔ b = true) → a = b.
Proof. destruct a, b; intuition congruence. Qed.

(** The test of a key looks at the value of that key alone. *)
Lemma field_test_agree r q q' field :
  q !! field = q' !! field → field_test r q field = field_test r q' field.
Proof. intros Hq. unfold field_test. by rewrite Hq. Qed.

Lemma row_passes_union q1 q2 r :
  q1 ##ₘ q2 →
  row_passes (q1 ∪ q2) r = row_passes q1 r && row_passes q2 r.
Proof.
  intros Hdisj. apply bool_eq_iff.
  rewrite andb_true_iff, !row_passes_true. split.
  - intros H. split; intros field [a Ha].
    + rewrite (field_test_agree r q1 (q1 ∪ q2) field).
      * apply H. exists a. by apply lookup_union_Some_l.
      * symmetry. rewrite Ha. by apply lookup_union_Some_l.
    + rewrite (field_test_agree r q2 (q1 ∪ q2) field).
      * apply H. exists a. by apply lookup_union_Some_r.
      * symmetry. rewrite Ha. by apply lookup_union_Some_r.
  - intros [H1 H2] field [a Ha].
    apply (lookup_union_Some _ _ _ _ Hdisj) in Ha as [Ha|Ha].
    + rewrite (field_test_agree r (q1 ∪ q2) q1 field).
      * apply H1. eauto.
      * rewrite Ha. by apply lookup_union_Some_l.
    + rewrite (field_test_agree r (q1 ∪ q2) q2 field).
      * apply H2. eauto.
      * rewrite Ha. by apply lookup_union_Some_r.
Qed.

(** X1: filtering by one set of constraints and then by another, on other
    columns, is filtering once by the two sets together. *)
Theorem filterData_union data q1 q2 :
  q1 ##ₘ q2 →
  filterData (filterData data q1) q2 = filterData data (q1 ∪ q2).
Proof.
  intros Hdisj. unfold filterData. rewrite filter_filter_and.
  apply filter_ext_bool. intros r. symmetry. by apply row_passes_union.
Qed.

Lemma filterData_union_witness :
  let data : list row :=
    [ {[ "Region" := VStr "East"; "Status" := VStr "Active" ]};
      {[ "Region" := VStr "West"; "Status" := VStr "Closed" ]} ] in
  let q1 : query := {[ "Region" := "East,West" ]} in
  let q2 : query := {[ "Status" := "Active" ]} in
  q1 ##ₘ q2
  ∧ filterData (filterData data q1) q2 = filterData data (q1 ∪ q2).
Proof.
  intros data q1 q2.
  assert (q1 ##ₘ q2) as Hdisj by (apply map_disjoint_singleton_l_2; vm_compute; reflexivity).
  split; [exact Hdisj|]. exact (filterData_union data q1 q2 Hdisj).
Defined.

(** X2: the order in which two filters are applied does not matter. *)
Theorem filterData_comm data q1 q2 :
  filterData (filterData data q1) q2 = filterData (filterData data q2) q1.
Proof.
  unfold filterData. rewrite !filter_filter_and.
  apply filter_ext_bool. intros r. apply andb_comm.
Qed.

(** X3: a cell that is not a string, a number for one, fails the test of
    every constraint on its column, whatever values the constraint
    accepts: the row is not kept. *)
Theorem filterData_non_string_cell data q field accepted r :
  q !! field = Some accepted → field ≠ "tab" →
  (∀ s, get r field ≠ VStr s) →
  r ∉ filterData data q.
Proof.
  intros Hq Hne Hcell Hin. unfold filterData in Hin.
  apply list_elem_of_In, filter_In in Hin as [_ Hpass].
  rewrite row_passes_true in Hpass.
  specialize (Hpass field (ex_intro _ accepted Hq)).
  apply (field_test_other r q field accepted Hne Hq) in Hpass
    as (s & _ & Hs).
  by apply (Hcell s).
Qed.

Lemma filterData_non_string_cell_witness :
  let r : row := {[ "Year" := VNum 2024%float ]} in
  let q : query := {[ "Year" := "2024" ]} in
  q !! "Year" = Some "2024" ∧ "Year" ≠ "tab"
  ∧ (∀ s, get r "Year" ≠ VStr s)
  ∧ r ∉ filterData [r] q.
Proof.
  intros r q.
  assert (q !! "Year" = Some "2024") as Hq by (vm_compute; reflexivity).
  assert ("Year" ≠ "tab") as Hne by discriminate.
  assert (∀ s, get r "Year" ≠ VStr s) as Hcell
    by (intros s; vm_compute; discriminate).
  split; [exact Hq|]. split; [exact Hne|]. split; [exact Hcell|].
  exact (filterData_non_string_cell [r] q "Year" "2024" r Hq Hne Hcell).
Defined.

Lemma split_go_no_occurrence sep cur s :
  occurs sep s = false →
  split_go sep 0 cur s = [string_of_list_ascii (rev cur) ++ s].
Proof.
  revert cur. induction s as [|a s IH]; intros cur Hocc.
  - cbn [split_go]. by rewrite string_append_empty.
  - cbn [occurs] in Hocc. apply orb_false_iff in Hocc as [Hp Hocc].
    cbn [split_go]. rewrite Hp, (IH _ Hocc). by rewrite string_of_rev_cons.
Qed.

Lemma js_split_no_occurrence s sep :
  occurs sep s = false → js_split s sep = [s].
Proof. intros Hocc. unfold js_split. by rewrite split_go_no_occurrence. Qed.

(** X4: a constraint whose value holds no comma keeps exactly the rows
    whose cell in that column is that very text; an empty value keeps the
    rows whose cell is the empty text, and not those without the
    column. *)
Theorem filterData_single_value data field accepted :
  field ≠ "tab" → occurs "," accepted = false →
  filterData data {[ field := accepted ]}
  = List.filter (λ r, strict_eq_str (get r field) accepted) data.
Proof.
  intros Hne Hocc. unfold filterData. apply filter_ext_bool. intros r.
  unfold row_passes, keys. rewrite map_to_list_singleton.
  cbn [fmap list_fmap fst forallb]. unfold field_test.
  rewrite bool_decide_eq_true_2 by done.
  rewrite lookup_singleton_eq. cbn [default from_option id].
  rewrite (js_split_no_occurrence _ _ Hocc).
  cbn [existsb truthy]. by rewrite orb_false_r, andb_true_r.
Qed.

Lemma filterData_single_value_witness :
  let data : list row :=
    [ {[ "Region" := VStr "" ]}; {[ "Status" := VStr "Active" ]} ] in
  "Region" ≠ "tab" ∧ occurs "," "" = false
  ∧ filterData data {[ "Region" := "" ]}
    = List.filter (λ r, strict_eq_str (get r "Region") "") data.
Proof.
  intros data.
  assert ("Region" ≠ "tab") as Hne by discriminate.
  assert (occurs "," "" = false) as Hocc by reflexivity.
  split; [exact Hne|]. split; [exact Hocc|].
  exact (filterData_single_value data "Region" "" Hne Hocc).
Defined.

End filter_more.

(** * More on the transformer *)

Section transform_more.
Implicit Types (v : schema) (r : row) (h : heap) (l : loc) (ls : list loc).

Lemma output_pure v l h : output v l h = transformRow_pure v (h !!! l).
Proof.
  unfold output, transformRow_pure.
  rewrite row_heap_lookup, decide_True by done. by destruct v.
Qed.

Lemma Forall_ok_step v ls l h :
  Forall (λ l', row_ok v (h !!! l') = true) ls →
  Forall (λ l', row_ok v (row_heap v l h !!! l') = true) ls.
Proof.
  intros Hok. eapply Forall_impl; [exact Hok|].
  intros l'. cbv beta. by rewrite row_heap_row_ok.
Qed.

(** In an array of distinct rows each row is found as the caller passed
    it. *)
Lemma run_outputs_pure v ls h :
  NoDup ls →
  run_outputs (row_heap v) (output v) ls h
  = (λ l, transformRow_pure v (h !!! l)) <$> ls.
Proof.
  revert h. induction ls as [|l ls IH]; intros h Hnd; [done|].
  apply NoDup_cons in Hnd as [Hl Hnd].
  cbn [run_outputs fmap list_fmap]. rewrite output_pure. f_equal.
  rewrite (IH _ Hnd). apply list_fmap_ext. intros i l' Hl'.
  rewrite row_heap_frame; [done|].
  intros ->. apply Hl. by eapply list_elem_of_lookup_2.
Qed.

Lemma run_heap_lookup v ls h l :
  NoDup ls → l ∈ ls →
  run_heap (row_heap v) ls h !!! l = convert_rows (names v) (h !!! l).
Proof.
  revert h. induction ls as [|l0 ls IH]; intros h Hnd Hl.
  - by apply elem_of_nil in Hl.
  - apply NoDup_cons in Hnd as [Hl0 Hnd].
    unfold run_heap in *. cbn [foldl].
    apply elem_of_cons in Hl as [->|Hl].
    + fold (run_heap (row_heap v) ls (row_heap v l0 h)).
      rewrite run_heap_frame by done.
      by rewrite row_heap_lookup, decide_True.
    + rewrite (IH _ Hnd Hl). rewrite row_heap_frame; [done|].
      intros ->. contradiction.
Qed.

(** A falsy cell is not touched by the rewriting of the name columns. *)
Lemma convert_row_lookup_falsy r k0 k :
  truthy (get r k) = false → convert_row k0 r !! k = r !! k.
Proof.
  intros Hf. destruct (decide (k0 = k)) as [->|Hne];
    [|by apply convert_row_lookup_ne].
  unfold convert_row. destruct (get r k) eqn:Hc; try done.
  rewrite truthy_str in Hf. apply negb_false_iff in Hf. by rewrite Hf.
Qed.

Lemma convert_rows_lookup_falsy ks r k :
  truthy (get r k) = false → convert_rows ks r !! k = r !! k.
Proof.
  revert r. induction ks as [|k0 ks IH]; intros r Hf; [done|].
  unfold convert_rows in *. cbn [foldl].
  rewrite IH.
  - by apply convert_row_lookup_falsy.
  - unfold get. by rewrite convert_row_lookup_falsy.
Qed.

Lemma run_heap_falsy v ls h l k :
  truthy (get (h !!! l) k) = false →
  (run_heap (row_heap v) ls h !!! l) !! k = (h !!! l) !! k.
Proof.
  revert h. induction ls as [|l0 ls IH]; intros h Hf; [done|].
  unfold run_heap in *. cbn [foldl].
  assert ((row_heap v l0 h !!! l) !! k = (h !!! l) !! k) as Hstep.
  { rewrite row_heap_lookup. case_decide; [subst|done].
    by apply convert_rows_lookup_falsy. }
  rewrite IH; [done|]. unfold get. by rewrite Hstep.
Qed.

(** X5: every column of the row that is not one of the derived columns
    and is not a name column holding a truthy value comes out as it went
    in: the other columns are copied, and a name cell that is falsy (the
    empty text, zero, null) is left alone, not reset to the empty text. *)
Theorem transformData_copies_columns v ls h :
  Forall (λ l, row_ok v (h !!! l) = true) ls →
  ∃ h' out,
    transformData_of v ls h = (h', Ok out)
    ∧ ∀ i l k, ls !! i = Some l → k ∉ derived_keys v →
        k ∉ names v ∨ truthy (get (h !!! l) k) = false →
        ∃ o, out !! i = Some o ∧ o !! k = (h !!! l) !! k.
Proof.
  intros Hok. rewrite (transformData_ok _ _ _ Hok). eexists _, _.
  split; [done|]. intros i l k Hi Hd Hk. eexists.
  split; [by apply run_outputs_lookup|].
  rewrite output_other by done.
  rewrite row_heap_lookup, decide_True by done.
  destruct Hk as [Hk|Hk].
  - rewrite convert_rows_lookup_ne by done. by apply run_heap_other.
  - rewrite convert_rows_lookup_falsy.
    + by apply run_heap_falsy.
    + unfold get. by rewrite run_heap_falsy.
Qed.

Lemma transformData_copies_columns_witness :
  let h : heap :=
    {[ 0 := {[ "Name" := VNum 0%float; "Region" := VStr "East";
               "Primary Opp" := VStr "Acme - Widget" ]} ]} in
  Forall (λ l, row_ok Single (h !!! l) = true) [0]
  ∧ ∃ h' out,
      transformData_of Single [0] h = (h', Ok out)
      ∧ ∀ i l k, [0] !! i = Some l → k ∉ derived_keys Single →
          k ∉ names Single ∨ truthy (get (h !!! l) k) = false →
          ∃ o, out !! i = Some o ∧ o !! k = (h !!! l) !! k.
Proof.
  intros h.
  assert (Forall (λ l, row_ok Single (h !!! l) = true) [0]) as Hok
    by (repeat constructor; vm_compute; reflexivity).
  split; [exact Hok|]. exact (transformData_copies_columns Single [0] h Hok).
Defined.

(** X6: the rows of the argument are rewritten in place.  After a run on
    distinct rows, each row of the argument agrees with the row returned
    for it on every column but the derived ones, which the argument's row
    does not receive; rows that are not in the array are as before. *)
Theorem transformData_in_place v ls h :
  NoDup ls →
  Forall (λ l, row_ok v (h !!! l) = true) ls →
  ∃ h' out,
    transformData_of v ls h = (h', Ok out)
    ∧ (∀ i l, ls !! i = Some l →
         ∃ o, out !! i = Some o
           ∧ (∀ k, k ∉ derived_keys v → (h' !!! l) !! k = o !! k)
           ∧ (∀ k, k ∈ derived_keys v → (h' !!! l) !! k = (h !!! l) !! k))
    ∧ (∀ l, l ∉ ls → h' !!! l = h !!! l).
Proof.
  intros Hnd Hok. rewrite (transformData_ok _ _ _ Hok). eexists _, _.
  split; [done|]. split; [|intros l Hl; by apply run_heap_frame].
  intros i l Hi. eexists. split; [by apply run_outputs_lookup|].
  assert (l ∈ ls) as Hl by by eapply list_elem_of_lookup_2.
  rewrite (run_heap_lookup v ls h l Hnd Hl). split.
  - intros k Hk. rewrite output_other by done.
    rewrite row_heap_lookup, decide_True by done.
    by rewrite (run_heap_frame v (take i ls) h l (NoDup_before _ _ _ Hnd Hi)).
  - intros k Hk. apply convert_rows_lookup_ne.
    intros Hn. by apply (names_not_derived v k Hn).
Qed.

Lemma transformData_in_place_witness :
  let h : heap :=
    {[ 0 := {[ "Name" := VStr "Doe, Jane"; "Client" := VStr "Old" ]};
       1 := {[ "Name" := VStr "Roe, Richard" ]} ]} in
  NoDup [0] ∧ Forall (λ l, row_ok Single (h !!! l) = true) [0]
  ∧ ∃ h' out,
      transformData_of Single [0] h = (h', Ok out)
      ∧ (∀ i l, [0] !! i = Some l →
           ∃ o, out !! i = Some o
             ∧ (∀ k, k ∉ derived_keys Single → (h' !!! l) !! k = o !! k)
             ∧ (∀ k, k ∈ derived_keys Single →
                  (h' !!! l) !! k = (h !!! l) !! k))
      ∧ (∀ l, l ∉ [0] → h' !!! l = h !!! l).
Proof.
  intros h.
  assert (NoDup [0]) as Hnd by compute_done.
  assert (Forall (λ l, row_ok Single (h !!! l) = true) [0]) as Hok
    by (repeat constructor; vm_compute; reflexivity).
  split; [exact Hnd|]. split; [exact Hok|].
  exact (transformData_in_place Single [0] h Hnd Hok).
Defined.

(** X7: in arrays of distinct rows, the row returned for a row depends on
    that row alone: not on its place in the array, not on the other rows,
    not on the rest of the store. *)
Theorem transformData_row_by_row v ls1 h1 ls2 h2 i j l1 l2 :
  NoDup ls1 → NoDup ls2 →
  Forall (λ l, row_ok v (h1 !!! l) = true) ls1 →
  Forall (λ l, row_ok v (h2 !!! l) = true) ls2 →
  ls1 !! i = Some l1 → ls2 !! j = Some l2 →
  h1 !!! l1 = h2 !!! l2 →
  ∃ h1' out1 h2' out2 o,
    transformData_of v ls1 h1 = (h1', Ok out1)
    ∧ transformData_of v ls2 h2 = (h2', Ok out2)
    ∧ out1 !! i = Some o ∧ out2 !! j = Some o.
Proof.
  intros Hnd1 Hnd2 Hok1 Hok2 Hi Hj Hrow.
  rewrite (transformData_ok _ _ _ Hok1), (transformData_ok _ _ _ Hok2).
  eexists _, _, _, _, _. split; [done|]. split; [done|].
  rewrite !run_outputs_pure by done. rewrite !list_lookup_fmap, Hi, Hj.
  cbn [fmap option_fmap option_map]. by rewrite Hrow.
Qed.

Lemma transformData_row_by_row_witness :
  let h1 : heap := {[ 0 := {[ "Name" := VStr "Doe, Jane" ]} ]} in
  let h2 : heap :=
    {[ 3 := {[ "Name" := VStr "Roe, Richard" ]};
       5 := {[ "Name" := VStr "Doe, Jane" ]} ]} in
  NoDup [0] ∧ NoDup [3; 5]
  ∧ Forall (λ l, row_ok Single (h1 !!! l) = true) [0]
  ∧ Forall (λ l, row_ok Single (h2 !!! l) = true) [3; 5]
  ∧ [0] !! 0 = Some 0 ∧ [3; 5] !! 1 = Some 5
  ∧ h1 !!! 0 = h2 !!! 5
  ∧ ∃ h1' out1 h2' out2 o,
      transformData_of Single [0] h1 = (h1', Ok out1)
      ∧ transformData_of Single [3; 5] h2 = (h2', Ok out2)
      ∧ out1 !! 0 = Some o ∧ out2 !! 1 = Some o.
Proof.
  intros h1 h2.
  assert (NoDup [0]) as Hnd1 by compute_done.
  assert (NoDup [3; 5]) as Hnd2 by compute_done.
  assert (Forall (λ l, row_ok Single (h1 !!! l) = true) [0]) as Hok1
    by (repeat constructor; vm_compute; reflexivity).
  assert (Forall (λ l, row_ok Single (h2 !!! l) = true) [3; 5]) as Hok2
    by (repeat constructor; vm_compute; reflexivity).
  assert ([0] !! 0 = Some 0) as Hi by reflexivity.
  assert ([3; 5] !! 1 = Some 5) as Hj by reflexivity.
  assert (h1 !!! 0 = h2 !!! 5) as Hrow by (vm_compute; reflexivity).
  repeat (split; [assumption|]).
  exact (transformData_row_by_row Single [0] h1 [3; 5] h2 0 1 0 5
           Hnd1 Hnd2 Hok1 Hok2 Hi Hj Hrow).
Defined.

End transform_more.

Section transform_text_and_throw.
Implicit Types (v : schema) (r : row) (h : heap) (l : loc) (ls : list loc).

Lemma concat_two_prefix sep c p (rest : list string) :
  ∃ tail, String.concat sep (c :: p :: rest) = c ++ sep ++ p ++ tail.
Proof.
  destruct rest as [|x rest].
  - exists "". cbn [String.concat]. by rewrite string_append_empty.
  - exists (sep ++ String.concat sep (x :: rest)). reflexivity.
Qed.

Lemma strip_ext_at_empty : strip_ext_at "" = "".
Proof. reflexivity. Qed.

Lemma derived_text_rule (cell : value) :
  ∃ t c p,
    derived cell = (VStr t, VStr c, VStr p)
    ∧ (∀ s, cell = VStr s → t = strip_ext_at s)
    ∧ (truthy cell = false → t = "")
    ∧ ((c = "" ∧ p = "") ∨ ∃ tail, t = c ++ " - " ++ p ++ tail).
Proof.
  unfold derived.
  destruct cell as [| |b|x|s|];
    try (exists "", "", ""; repeat split; [done|by left]).
  destruct (String.eqb s "") eqn:Hs.
  - apply String.eqb_eq in Hs as ->. exists "", "", "".
    split; [done|]. split; [by intros s [= <-]|]. split; [done|by left].
  - pose proof (js_split_concat (strip_ext_at s) " - ") as Hjoin.
    destruct (js_split (strip_ext_at s) " - ") as [|c [|p rest]] eqn:Hseg.
    + exists (strip_ext_at s), "", "".
      split; [done|]. split; [by intros s' [= <-]|].
      split; [|by left]. rewrite truthy_str, Hs. done.
    + exists (strip_ext_at s), "", "".
      split; [done|]. split; [by intros s' [= <-]|].
      split; [|by left]. rewrite truthy_str, Hs. done.
    + exists (strip_ext_at s), c, p.
      split; [done|]. split; [by intros s' [= <-]|].
      split; [rewrite truthy_str, Hs; done|]. right.
      destruct (concat_two_prefix " - " c p rest) as [tail Htail].
      exists tail. rewrite <- Htail. symmetry. by apply Hjoin.
Qed.

Lemma output_dual_texts l h :
  composite_text_rule (get (h !!! l) "Current Eng.")
    (output Dual l h !! "ClientProject") (output Dual l h !! "Client")
    (output Dual l h !! "Project")
  ∧ composite_text_rule (get (h !!! l) "Primary Opp")
      (output Dual l h !! "NextClientOpp") (output Dual l h !! "NextClient")
      (output Dual l h !! "NextProject").
Proof.
  unfold output.
  destruct (derived_text_rule (get (h !!! l) "Primary Opp"))
    as (t1 & c1 & p1 & -> & Hs1 & Hf1 & Hcp1).
  destruct (derived_text_rule (get (h !!! l) "Current Eng."))
    as (t2 & c2 & p2 & -> & Hs2 & Hf2 & Hcp2).
  split.
  - exists t2, c2, p2. split; [|split; [|split; [|done]]].
    + do 5 (rewrite lookup_insert_ne by done). by rewrite lookup_insert_eq.
    + do 4 (rewrite lookup_insert_ne by done). by rewrite lookup_insert_eq.
    + do 3 (rewrite lookup_insert_ne by done). by rewrite lookup_insert_eq.
  - exists t1, c1, p1. split; [|split; [|split; [|done]]].
    + do 2 (rewrite lookup_insert_ne by done). by rewrite lookup_insert_eq.
    + do 1 (rewrite lookup_insert_ne by done). by rewrite lookup_insert_eq.
    + by rewrite lookup_insert_eq.
Qed.

(** X8: with two composite columns the output row also keeps the text
    the client and the project were cut from: [ClientProject] is
    [Current Eng.] without a leading [Ext. at ] (empty when the cell is
    missing or empty), and either [Client] and [Project] are both empty
    or [ClientProject] starts with [<Client> - <Project>]; the same holds
    of [NextClientOpp], [NextClient] and [NextProject] for
    [Primary Opp]. *)
Theorem transformData_composite_texts ls h :
  Forall (λ l, row_ok Dual (h !!! l) = true) ls →
  ∃ h' out,
    Part000.transformData ls h = (h', Ok out)
    ∧ ∀ i l, ls !! i = Some l →
        ∃ o, out !! i = Some o
          ∧ composite_text_rule (get (h !!! l) "Current Eng.")
              (o !! "ClientProject") (o !! "Client") (o !! "Project")
          ∧ composite_text_rule (get (h !!! l) "Primary Opp")
              (o !! "NextClientOpp") (o !! "NextClient") (o !! "NextProject").
Proof.
  intros Hok. pose proof (transformData_ok Dual ls h Hok) as Hrun.
  cbn [transformData_of] in Hrun. rewrite Hrun. eexists _, _.
  split; [done|]. intros i l Hi. eexists.
  split; [by apply run_outputs_lookup|].
  set (hi := run_heap (row_heap Dual) (take i ls) h).
  assert (∀ k, k ∈ composites Dual → get (hi !!! l) k = get (h !!! l) k)
    as Hsame.
  { intros k Hk. unfold get, hi.
    by rewrite run_heap_other by by apply composites_not_names. }
  pose proof (output_dual_texts l hi) as Htexts.
  by rewrite !Hsame in Htexts by compute_done.
Qed.

Lemma transformData_composite_texts_witness :
  let h : heap :=
    {[ 0 := {[ "Current Eng." := VStr "Ext. at Acme - Widget - 2024";
               "Primary Opp" := VStr "Acme Only" ]} ]} in
  Forall (λ l, row_ok Dual (h !!! l) = true) [0]
  ∧ ∃ h' out,
      Part000.transformData [0] h = (h', Ok out)
      ∧ ∀ i l, [0] !! i = Some l →
          ∃ o, out !! i = Some o
            ∧ composite_text_rule (get (h !!! l) "Current Eng.")
                (o !! "ClientProject") (o !! "Client") (o !! "Project")
            ∧ composite_text_rule (get (h !!! l) "Primary Opp")
                (o !! "NextClientOpp") (o !! "NextClient")
                (o !! "NextProject").
Proof.
  intros h.
  assert (Forall (λ l, row_ok Dual (h !!! l) = true) [0]) as Hok
    by (repeat constructor; vm_compute; reflexivity).
  split; [exact Hok|]. exact (transformData_composite_texts [0] h Hok).
Defined.

(** A callback that throws has touched no row but its own. *)
Ltac thrown_here :=
  eexists; split; [reflexivity|];
  let l' := fresh "l'" in let Hne := fresh "Hne" in
  intros l' Hne;
  repeat (rewrite convert_heap_lookup, decide_False by done); done.
Ltac cell_after H :=
  repeat (rewrite convert_heap_lookup, decide_True by done);
  rewrite ?convert_row_cell_ok; exact H.
Ltac derive_or_throw h l k :=
  unfold mbind at 1, M_bind at 1;
  let H := fresh "Hcell" in
  destruct (cell_ok (get (h !!! l) k)) eqn:H;
  [rewrite (derive_ok _ _ _ H) | rewrite (derive_bad _ _ _ H); thrown_here].
Ltac convertName_or_throw h l k :=
  unfold mbind at 1, M_bind at 1;
  let H := fresh "Hcell" in
  destruct (cell_ok (get (h !!! l) k)) eqn:H;
  [rewrite convertName_ok; [|cell_after H]
  |rewrite convertName_bad; [thrown_here|cell_after H]].

Lemma transformRow_throw_frame v l h :
  row_ok v (h !!! l) = false →
  ∃ h', transformRow_of v l h = (h', Throw TypeError)
        ∧ ∀ l', l' ≠ l → h' !!! l' = h !!! l'.
Proof.
  rewrite row_ok_unfold. destruct v; intros Hbad.
  - unfold transformRow_of, Index.transformRow.
    derive_or_throw h l "Primary Opp".
    destruct (derived (get (h !!! l) "Primary Opp")) as [[t client] project].
    convertName_or_throw h l "Name".
    convertName_or_throw h l "Primary Owner".
    discriminate Hbad.
  - unfold transformRow_of, Part000.transformRow.
    derive_or_throw h l "Primary Opp".
    destruct (derived (get (h !!! l) "Primary Opp")) as [[t1 c1] p1].
    derive_or_throw h l "Current Eng.".
    destruct (derived (get (h !!! l) "Current Eng.")) as [[t2 c2] p2].
    convertName_or_throw h l "Name".
    convertName_or_throw h l "Primary Owner".
    convertName_or_throw h l "Current Owner".
    convertName_or_throw h l "Manager".
    discriminate Hbad.
Qed.

Lemma transformData_array_map v : transformData_of v = array_map (transformRow_of v).
Proof. by destruct v. Qed.

Lemma array_map_throw_at v ls1 l ls2 h :
  Forall (λ l', row_ok v (h !!! l') = true) ls1 →
  row_ok v (h !!! l) = false →
  ∃ h', array_map (transformRow_of v) (ls1 ++ l :: ls2) h
        = (h', Throw TypeError)
        ∧ ∀ l', l' ≠ l → h' !!! l' = run_heap (row_heap v) ls1 h !!! l'.
Proof.
  revert h. induction ls1 as [|l0 ls1 IH]; intros h Hok Hbad.
  - cbn [app array_map]. unfold mbind at 1, M_bind at 1.
    destruct (transformRow_throw_frame v l h Hbad) as (h' & -> & Hframe).
    by exists h'.
  - apply Forall_cons in Hok as [Hl0 Hok].
    cbn [app array_map]. unfold mbind at 1, M_bind at 1.
    rewrite (transformRow_ok v l0 h Hl0).
    destruct (IH (row_heap v l0 h)) as (h' & Hrun & Hframe).
    { by apply Forall_ok_step. }
    { by rewrite row_heap_row_ok. }
    exists h'. unfold mbind at 1, M_bind at 1. rewrite Hrun.
    split; [done|]. exact Hframe.
Qed.

(** X9: a TypeError undoes nothing.  When the rows before a row are
    accepted and that row is not, the run throws, and outside that row the
    store is the one a run over the rows before it leaves: their names
    stay rewritten. *)
Theorem transformData_no_rollback v ls1 l ls2 h :
  Forall (λ l', row_ok v (h !!! l') = true) ls1 →
  row_ok v (h !!! l) = false →
  ∃ h', transformData_of v (ls1 ++ l :: ls2) h = (h', Throw TypeError)
        ∧ ∀ l', l' ≠ l → h' !!! l' = (transformData_of v ls1 h).1 !!! l'.
Proof.
  intros Hok Hbad. rewrite (transformData_ok v ls1 h Hok). cbn [fst].
  rewrite transformData_array_map. by apply array_map_throw_at.
Qed.

Lemma transformData_no_rollback_witness :
  let h : heap :=
    {[ 0 := {[ "Name" := VStr "Doe, Jane" ]};
       1 := {[ "Name" := VNum 42%float ]};
       2 := {[ "Name" := VStr "Roe, Richard" ]} ]} in
  Forall (λ l', row_ok Single (h !!! l') = true) [0]
  ∧ row_ok Single (h !!! 1) = false
  ∧ ∃ h', transformData_of Single ([0] ++ 1 :: [2]) h = (h', Throw TypeError)
          ∧ ∀ l', l' ≠ 1 →
              h' !!! l' = (transformData_of Single [0] h).1 !!! l'.
Proof.
  intros h.
  assert (Forall (λ l', row_ok Single (h !!! l') = true) [0]) as Hok
    by (repeat constructor; vm_compute; reflexivity).
  assert (row_ok Single (h !!! 1) = false) as Hbad
    by (vm_compute; reflexivity).
  split; [exact Hok|]. split; [exact Hbad|].
  exact (transformData_no_rollback Single [0] 1 [2] h Hok Hbad).
Defined.

End transform_text_and_throw.

(** * The key check *)

(** X10: the request goes on to the handlers exactly when the server has
    a non-empty key and the header [x-api-key] is that key; in every other
    case, also when no key is configured and the request carries none,
    the answer is the 401. *)
Theorem apiKeyCheck_next_iff (env headers : gmap string string) :
  (apiKeyCheck env headers = Next
   ↔ ∃ key, key ≠ "" ∧ env !! "MY_API_KEY" = Some key
            ∧ headers !! "x-api-key" = Some key)
  ∧ (apiKeyCheck env headers ≠ Next →
     apiKeyCheck env headers
     = Refused (Response 401 (Text "Unauthorized: Invalid API key"))).
Proof.
  unfold apiKeyCheck.
  destruct (env !! "MY_API_KEY") as [key|] eqn:Hkey;
    destruct (headers !! "x-api-key") as [sent|] eqn:Hsent;
    cbn [of_option truthy strict_eq negb orb].
  - destruct (String.eqb key "") eqn:Hempty; cbn [negb orb].
    + split; [|done]. split; [done|].
      intros (k & Hk & [= <-] & _). apply String.eqb_neq in Hk. congruence.
    + destruct (String.eqb sent key) eqn:Heq; cbn [negb].
      * apply String.eqb_eq in Heq as ->. split; [|done].
        split; [|done]. intros _. exists key.
        by apply String.eqb_neq in Hempty.
      * split; [|done]. split; [done|].
        intros (k & _ & [= <-] & [= ->]).
        by rewrite String.eqb_refl in Heq.
  - destruct (String.eqb key ""); cbn [negb orb];
      (split; [|done]); (split; [done|]); by intros (k & _ & _ & ?).
  - split; [|done]. split; [done|]. by intros (k & _ & ? & _).
  - split; [|done]. split; [done|]. by intros (k & _ & ? & _).
Qed.

(** * The stream reader *)

Section stream.
Implicit Types (cs : list chunk) (evs : list stream_event) (st : reader).

Lemma listen_data cs st :
  foldl listen st (OnData <$> cs)
  = Reader (chunks st ++ (to_buffer <$> cs))%list (settled st).
Proof.
  revert st. induction cs as [|c cs IH]; intros st.
  - cbn [fmap list_fmap foldl]. rewrite app_nil_r. by destruct st.
  - cbn [fmap list_fmap foldl]. rewrite IH. cbn [listen chunks settled].
    by rewrite <- app_assoc.
Qed.

(** A settled promise stays as it is. *)
Lemma listen_settled evs st :
  settled st ≠ Pending → settled (foldl listen st evs) = settled st.
Proof.
  revert st. induction evs as [|ev evs IH]; intros st Hst; [done|].
  cbn [foldl].
  assert (settled (listen st ev) = settled st) as Hstep.
  { destruct ev; cbn [listen settled]; [done| |];
      by destruct (settled st). }
  rewrite IH; [done|]. by rewrite Hstep.
Qed.

(** X11: a stream that ends without an error gives the bytes of its
    chunks, in the order they came, as one buffer: how the stream was cut
    into chunks leaves no trace, and what the stream emits after its end
    changes nothing. *)
Theorem streamToBuffer_end cs evs :
  streamToBuffer ((OnData <$> cs) ++ OnEnd :: evs)%list
  = Fulfilled (List.concat (to_buffer <$> cs)).
Proof.
  unfold streamToBuffer. rewrite foldl_app, listen_data. cbn [foldl].
  rewrite listen_settled; cbn [listen chunks settled resolve app]; done.
Qed.

(** X12: a stream that fails before it ends rejects with that error,
    whatever it had delivered and whatever follows; a stream that has
    neither ended nor failed leaves the promise pending. *)
Theorem streamToBuffer_error_pending cs e evs :
  streamToBuffer ((OnData <$> cs) ++ OnError e :: evs)%list = Rejected e
  ∧ streamToBuffer (OnData <$> cs) = Pending.
Proof.
  unfold streamToBuffer. split.
  - rewrite foldl_app, listen_data. cbn [foldl].
    rewrite listen_settled; cbn [listen chunks settled reject]; done.
  - by rewrite listen_data.
Qed.

End stream.

(** * The data handler *)

Section data_facts.
Context {W : Type}.
Variable xlsx_read : list ascii → result (gmap string W).
Variable sheet_to_json : @sheet_value W → result (list row).
Implicit Types (v : schema) (q : query) (rows : list row).
Implicit Types (rq : request_query) (params : list (string * string)).

(** *** filterData on a query of strings *)

Lemma query_get_strings params k :
  query_get (string_query params) k
  = QueryString <$> (list_to_map params : query) !! k.
Proof.
  induction params as [|[k' s] params IH]; [done|].
  cbn [string_query fmap list_fmap query_get fst snd list_to_map foldr
       uncurry].
  destruct (String.eqb_spec k' k) as [->|Hne].
  - by rewrite lookup_insert_eq.
  - rewrite lookup_insert_ne by done. apply IH.
Qed.

Lemma string_query_keys params : (string_query params).*1 = params.*1.
Proof.
  unfold string_query. rewrite <- list_fmap_compose. done.
Qed.

Lemma field_test_request_strings r params field :
  field ∈ params.*1 →
  field_test_request r (string_query params) field
  = Ok (field_test r (list_to_map params) field).
Proof.
  intros Hin. unfold field_test_request, field_test.
  case_bool_decide; [|done]. rewrite query_get_strings.
  destruct ((list_to_map params : query) !! field) as [s|] eqn:Hs; [done|].
  by apply not_elem_of_list_to_map in Hs.
Qed.

Lemma every_request_strings r params fields :
  Forall (λ field, field ∈ params.*1) fields →
  every_request r (string_query params) fields
  = Ok (forallb (λ field, truthy (field_test r (list_to_map params) field))
          fields).
Proof.
  induction 1 as [|field fields Hin _ IH]; [done|].
  cbn [every_request forallb]. rewrite (field_test_request_strings _ _ _ Hin).
  by destruct (truthy _).
Qed.

Lemma forallb_keys r params :
  forallb (λ field, truthy (field_test r (list_to_map params) field))
          params.*1
  = row_passes (list_to_map params) r.
Proof.
  apply eq_true_iff_eq. rewrite row_passes_true, forallb_forall. split.
  - intros H field Hf. apply H, list_elem_of_In.
    destruct (decide (field ∈ params.*1)) as [|Hnot]; [done|].
    apply not_elem_of_list_to_map in Hnot. rewrite Hnot in Hf.
    by destruct Hf.
  - intros H field Hf. apply H. apply list_elem_of_In in Hf.
    destruct ((list_to_map params : query) !! field) eqn:Hs; [eauto|].
    by apply not_elem_of_list_to_map in Hs.
Qed.

(** On a query of strings the filter throws nothing and is [filterData]
    on the mapping the query represents. *)
Lemma filterData_request_strings data params :
  filterData_request data (string_query params)
  = Ok (filterData data (list_to_map params)).
Proof.
  induction data as [|r data IH]; [done|].
  cbn [filterData_request]. rewrite string_query_keys.
  rewrite every_request_strings by (apply Forall_forall; auto).
  rewrite forallb_keys, IH. unfold filterData. cbn [List.filter].
  by destruct (row_passes _ r).
Qed.

Lemma query_delete_strings k params :
  query_delete k (string_query params)
  = string_query (List.filter (λ kv, negb (String.eqb kv.1 k)) params).
Proof.
  induction params as [|[k' s] params IH]; [done|].
  unfold query_delete, string_query in *.
  cbn [fmap list_fmap List.filter fst snd].
  destruct (String.eqb k' k); cbn [negb fmap list_fmap fst snd];
    by rewrite IH.
Qed.

Lemma list_to_map_delete k params :
  (list_to_map (List.filter (λ kv, negb (String.eqb kv.1 k)) params) : query)
  = delete k (list_to_map params).
Proof.
  induction params as [|[k' s] params IH]; [symmetry; apply delete_empty|].
  cbn [List.filter fst snd list_to_map foldr uncurry].
  destruct (String.eqb_spec k' k) as [->|Hne]; cbn [negb].
  - by rewrite delete_insert_eq.
  - rewrite delete_insert_ne by done.
    cbn [list_to_map foldr uncurry]. by rewrite <- IH.
Qed.

(** *** filterData on a query that holds an array or an object *)

Lemma every_request_throws r rq fields k text :
  k ∈ fields → k ≠ "tab" → query_get rq k = Some (QueryObject text) →
  "tab" ∉ fields →
  (∀ field s, field ∈ fields → query_get rq field = Some (QueryString s) →
     existsb (λ value, strict_eq_str (get r field) value) (js_split s ",")
     = true) →
  every_request r rq fields = Throw TypeError.
Proof.
  intros Hk Hne Hget. induction fields as [|field fields IH]; intros Htab Hpass.
  - by apply elem_of_nil in Hk.
  - apply not_elem_of_cons in Htab as [Hfield Htab].
    cbn [every_request]. unfold field_test_request.
    rewrite bool_decide_eq_true_2 by done.
    destruct (query_get rq field) as [[s|text']|] eqn:Hf; [|done|done].
    rewrite (Hpass field s) by (done || (apply elem_of_cons; by left)).
    cbn [truthy]. apply elem_of_cons in Hk as [->|Hk]; [congruence|].
    apply IH; [done|done|].
    intros field' s' Hin. apply Hpass. apply elem_of_cons. by right.
Qed.

Lemma filterData_request_throws data rq r :
  r ∈ data → every_request r rq rq.*1 = Throw TypeError →
  filterData_request data rq = Throw TypeError.
Proof.
  intros Hr Hthrow. induction data as [|r' data IH].
  - by apply elem_of_nil in Hr.
  - cbn [filterData_request].
    destruct (every_request r' rq rq.*1) as [keep|[]] eqn:Hr'; [|done].
    apply elem_of_cons in Hr as [->|Hr]; [congruence|].
    by rewrite (IH Hr).
Qed.

Lemma query_get_delete_ne k k' rq :
  k' ≠ k → query_get (query_delete k rq) k' = query_get rq k'.
Proof.
  intros Hne. induction rq as [|[k0 x] rq IH]; [done|].
  unfold query_delete in *. cbn [List.filter fst query_get].
  destruct (String.eqb_spec k0 k) as [->|Hk0]; cbn [negb query_get].
  - destruct (String.eqb_spec k k') as [->|_]; [done|apply IH].
  - by rewrite IH.
Qed.

Lemma query_delete_keys k k' rq :
  k' ∈ (query_delete k rq).*1 ↔ k' ≠ k ∧ k' ∈ rq.*1.
Proof.
  unfold query_delete. rewrite !list_elem_of_fmap. split.
  - intros ([k0 x] & -> & Hin). apply list_elem_of_In, filter_In in Hin.
    destruct Hin as [Hin Hne]. cbn [fst] in *.
    apply negb_true_iff, String.eqb_neq in Hne. split; [done|].
    exists (k0, x). split; [done|]. by apply list_elem_of_In.
  - intros (Hne & [k0 x] & -> & Hin). exists (k0, x). split; [done|].
    apply list_elem_of_In, filter_In. split; [by apply list_elem_of_In|].
    cbn [fst] in *. by apply negb_true_iff, String.eqb_neq.
Qed.

Lemma query_get_keys rq k x : query_get rq k = Some x → k ∈ rq.*1.
Proof.
  induction rq as [|[k0 y] rq IH]; [done|]. cbn [query_get fmap list_fmap fst].
  destruct (String.eqb_spec k0 k) as [->|Hne]; intros Hget.
  - apply elem_of_cons. by left.
  - apply elem_of_cons. right. apply IH, Hget.
Qed.


Lemma fresh_rows_lookup rows (l : loc) r :
  rows !! l = Some r → (map_seq 0 rows : heap) !!! l = r.
Proof.
  intros Hl. apply lookup_total_correct. by rewrite lookup_map_seq_0.
Qed.

Lemma fresh_rows_ok v rows :
  Forall (λ r, row_ok v r = true) rows →
  Forall (λ l, row_ok v ((map_seq 0 rows : heap) !!! l) = true)
         (seq 0 (List.length rows)).
Proof.
  intros Hok. apply Forall_forall. intros l Hl.
  apply elem_of_seq in Hl as [_ Hl].
  destruct (lookup_lt_is_Some_2 rows l) as [r Hr]; [lia|].
  rewrite (fresh_rows_lookup _ _ _ Hr).
  by apply (proj1 (Forall_lookup _ _) Hok l r).
Qed.

Lemma fresh_rows_pure v rows :
  (λ l, transformRow_pure v ((map_seq 0 rows : heap) !!! l))
    <$> seq 0 (List.length rows)
  = transformRow_pure v <$> rows.
Proof.
  apply list_eq. intros i. rewrite !list_lookup_fmap.
  destruct (rows !! i) as [r|] eqn:Hr.
  - rewrite (lookup_seq_lt _ _ i) by by eapply lookup_lt_Some.
    cbn [fmap option_fmap option_map Nat.add]. f_equal.
    by rewrite (fresh_rows_lookup _ _ _ Hr).
  - rewrite lookup_seq_ge; [done|]. by apply lookup_ge_None.
Qed.

(** On the new objects of a sheet the loop is the row-wise map. *)
Lemma transformData_fresh v rows :
  Forall (λ r, row_ok v r = true) rows →
  ∃ h', transformData_of v (seq 0 (List.length rows)) (map_seq 0 rows)
        = (h', Ok (transformRow_pure v <$> rows)).
Proof.
  intros Hok. rewrite (transformData_ok v _ _ (fresh_rows_ok v rows Hok)).
  eexists. f_equal. f_equal.
  rewrite run_outputs_pure by apply NoDup_seq. apply fresh_rows_pure.
Qed.

Lemma transformData_fresh_throws v rows :
  Exists (λ r, row_ok v r = false) rows →
  ∃ h', transformData_of v (seq 0 (List.length rows)) (map_seq 0 rows)
        = (h', Throw TypeError).
Proof.
  intros Hbad. apply transformData_bad.
  apply Exists_exists in Hbad as (r & Hr & Hbad).
  apply list_elem_of_lookup_1 in Hr as [l Hl].
  apply Exists_exists. exists l. split.
  - apply elem_of_seq. split; [lia|]. cbn. by eapply lookup_lt_Some.
  - by rewrite (fresh_rows_lookup _ _ _ Hl).
Qed.

(** X13: when [req.query] is a property that holds the parsed query and
    each parameter is given once, so that every value is a string, then
    for a tab that names a sheet whose rows the transformer accepts the
    answer is the 200 with the rows of the sheet, each transformed on its
    own, that pass every constraint of the query other than [tab]: the
    handler takes [tab] out before it filters, so the parameter that
    selects the sheet excludes no row. *)
Theorem data_respond_rows v params events buffer sheets name w rows :
  streamToBuffer events = Fulfilled buffer →
  xlsx_read buffer = Returned sheets →
  (list_to_map params : query) !! "tab" = Some name →
  name ≠ "" → sheets !! name = Some w →
  sheet_to_json (Worksheet w) = Returned rows →
  Forall (λ r, row_ok v r = true) rows →
  ∃ kept,
    data_respond false xlsx_read sheet_to_json v (string_query params)
      (Returned events)
    = Some (Response 200 (Json kept))
    ∧ kept = filterData (transformRow_pure v <$> rows)
               (delete "tab" (list_to_map params))
    ∧ ∀ r, r ∈ kept
           ↔ r ∈ transformRow_pure v <$> rows
             ∧ passes_all (delete "tab" (list_to_map params)) r.
Proof.
  intros Hbuf Hread Htab Hname Hsheet Hjson Hok.
  eexists. split; [|split; [reflexivity|]].
  - unfold data_respond. rewrite Hbuf. unfold data_try.
    rewrite Hread, query_get_strings, Htab.
    cbn [fmap option_fmap option_map query_text query_truthy].
    unfold sheets_get. rewrite Hsheet. cbn [sheet_truthy negb].
    apply String.eqb_neq in Hname. rewrite Hname.
    cbn [negb]. rewrite Hjson. unfold fresh_rows.
    destruct (transformData_fresh v rows Hok) as [h' ->].
    by rewrite query_delete_strings, filterData_request_strings,
      list_to_map_delete.
  - intros r. unfold filterData.
    rewrite !list_elem_of_In, filter_In.
    by rewrite (row_passes_spec (delete "tab" (list_to_map params)) r
                  (lookup_delete_eq _ "tab")).
Qed.

(** X14: a tab that names no sheet, and that is not the name of a member
    every object inherits ([toString], [constructor], ...), is answered
    by the 500 with the message of the tab that is not found; so is a
    request without [tab], whose tab reads [undefined], when no sheet has
    that name.  This holds whatever else the query holds and whatever
    [req.query] is. *)
Theorem data_respond_no_sheet accessor v rq events buffer sheets :
  streamToBuffer events = Fulfilled buffer →
  xlsx_read buffer = Returned sheets →
  query_text (query_get rq "tab") ∉ proto_keys →
  sheets !! query_text (query_get rq "tab") = None →
  data_respond accessor xlsx_read sheet_to_json v rq (Returned events)
  = Some (Response 500
            (Text (tab_not_found (query_text (query_get rq "tab"))))).
Proof.
  intros Hbuf Hread Hkey Hnone.
  unfold data_respond. rewrite Hbuf. unfold data_try. rewrite Hread.
  unfold sheets_get. rewrite Hnone.
  by rewrite (bool_decide_eq_false_2 _ Hkey).
Qed.

Lemma falsy_tab_key rq :
  query_truthy (query_get rq "tab") = false →
  query_text (query_get rq "tab") ∉ proto_keys.
Proof.
  intros Hfalsy.
  destruct (query_get rq "tab") as [[name|text]|];
    cbn [query_truthy query_text] in *.
  - apply negb_false_iff in Hfalsy.
    apply String.eqb_eq in Hfalsy as ->. compute_done.
  - discriminate Hfalsy.
  - compute_done.
Qed.

(** X19: the 400 that asks for the parameter is sent exactly when [tab]
    is missing or empty and the workbook has a sheet of the very name the
    missing or empty tab reads as ([undefined], or the empty name): the
    sheet is looked up before the tab is tested. *)
Theorem data_respond_tab_required accessor v rq events buffer sheets :
  streamToBuffer events = Fulfilled buffer →
  xlsx_read buffer = Returned sheets →
  data_respond accessor xlsx_read sheet_to_json v rq (Returned events)
  = Some (Response 400 (Text "Tab query parameter is required"))
  ↔ query_truthy (query_get rq "tab") = false
    ∧ is_Some (sheets !! query_text (query_get rq "tab")).
Proof.
  intros Hbuf Hread.
  unfold data_respond. rewrite Hbuf. unfold data_try. rewrite Hread.
  unfold sheets_get.
  destruct (query_truthy (query_get rq "tab")) eqn:Htab.
  - split; [|by intros [? _]]. intros Hres. exfalso.
    assert (∀ worksheet : @sheet_value W,
      match
        match sheet_to_json worksheet with
        | Returned worksheetData =>
            let '(h, ls) := fresh_rows worksheetData in
            match transformData_of v ls h with
            | (_, Ok transformedData) =>
                match
                  filterData_request transformedData
                    (if accessor then rq else query_delete "tab" rq)
                with
                | Ok filteredData =>
                    Returned (Response 200 (Json filteredData))
                | Throw e => Raised (EngineError e)
                end
            | (_, Throw e) => Raised (EngineError e)
            end
        | Raised e => Raised e
        end
      with
      | Returned res => Some res
      | Raised e => Some (caught e)
      end ≠ Some (Response 400 (Text "Tab query parameter is required")))
      as Hnot.
    { intros worksheet.
      destruct (sheet_to_json worksheet) as [rows|e]; [|by destruct e].
      unfold fresh_rows.
      destruct (transformData_of v _ _) as [h' [out|[]]]; [|done].
      by destruct (filterData_request out _) as [kept|[]]. }
    destruct (sheets !! query_text (query_get rq "tab")) as [w|].
    + by apply (Hnot (Worksheet w)).
    + case_bool_decide; [by apply (Hnot InheritedMember)|].
      discriminate Hres.
  - pose proof (falsy_tab_key rq Htab) as Hkey.
    destruct (sheets !! query_text (query_get rq "tab"))
      as [w|] eqn:Hw; cbn [sheet_truthy negb].
    + split; [by eauto|done].
    + rewrite (bool_decide_eq_false_2 _ Hkey). cbn [sheet_truthy negb].
      split; [done|]. by intros [_ [? ?]].
Qed.

(** X15: one cell the transformer throws on, in any row of the sheet, and
    the answer is the 500 with the message of the TypeError: no row of the
    sheet is sent, whatever the query and whatever [req.query] is. *)
Theorem data_respond_type_error accessor v rq events buffer sheets name w
    rows :
  streamToBuffer events = Fulfilled buffer →
  xlsx_read buffer = Returned sheets →
  query_get rq "tab" = Some (QueryString name) →
  name ≠ "" → sheets !! name = Some w →
  sheet_to_json (Worksheet w) = Returned rows →
  Exists (λ r, row_ok v r = false) rows →
  data_respond accessor xlsx_read sheet_to_json v rq (Returned events)
  = Some (Response 500 (EngineMessage TypeError)).
Proof.
  intros Hbuf Hread Htab Hname Hsheet Hjson Hbad.
  unfold data_respond. rewrite Hbuf. unfold data_try.
  rewrite Hread, Htab. cbn [query_text query_truthy].
  unfold sheets_get. rewrite Hsheet. cbn [sheet_truthy negb].
  apply String.eqb_neq in Hname. rewrite Hname.
  cbn [negb]. rewrite Hjson. unfold fresh_rows.
  by destruct (transformData_fresh_throws v rows Hbad) as [h' ->].
Qed.

(** X20: when [req.query] is an accessor that parses the URL anew at
    every read, the [delete] changes nothing that [filterData] sees: for
    a query of strings and a tab that names a sheet whose rows the
    transformer accepts, [tab] is among the constraints and the answer is
    the 200 with no row at all. *)
Theorem data_respond_accessor_no_rows v params events buffer sheets name w
    rows :
  streamToBuffer events = Fulfilled buffer →
  xlsx_read buffer = Returned sheets →
  (list_to_map params : query) !! "tab" = Some name →
  name ≠ "" → sheets !! name = Some w →
  sheet_to_json (Worksheet w) = Returned rows →
  Forall (λ r, row_ok v r = true) rows →
  data_respond true xlsx_read sheet_to_json v (string_query params)
    (Returned events)
  = Some (Response 200 (Json [])).
Proof.
  intros Hbuf Hread Htab Hname Hsheet Hjson Hok.
  unfold data_respond. rewrite Hbuf. unfold data_try.
  rewrite Hread, query_get_strings, Htab.
  cbn [fmap option_fmap option_map query_text query_truthy].
  unfold sheets_get. rewrite Hsheet. cbn [sheet_truthy negb].
  apply String.eqb_neq in Hname. rewrite Hname.
  cbn [negb]. rewrite Hjson. unfold fresh_rows.
  destruct (transformData_fresh v rows Hok) as [h' ->].
  rewrite filterData_request_strings.
  by rewrite filterData_tab by by rewrite Htab.
Qed.

(** X21: when [req.query] is a property that holds the parsed query, a
    parameter other than [tab] that is given more than once is an array,
    and [filterData] throws on it as soon as a row passes the constraints
    that are strings: for a tab that names a sheet with such a row the
    answer is the 500 with the message of the TypeError, and no row is
    sent. *)
Theorem data_respond_repeated_parameter v rq events buffer sheets name w
    rows k text r :
  streamToBuffer events = Fulfilled buffer →
  xlsx_read buffer = Returned sheets →
  query_get rq "tab" = Some (QueryString name) →
  name ≠ "" → sheets !! name = Some w →
  sheet_to_json (Worksheet w) = Returned rows →
  Forall (λ r, row_ok v r = true) rows →
  k ≠ "tab" → query_get rq k = Some (QueryObject text) →
  r ∈ transformRow_pure v <$> rows →
  (∀ field accepted, field ≠ "tab" →
     query_get rq field = Some (QueryString accepted) →
     passes_key r field accepted) →
  data_respond false xlsx_read sheet_to_json v rq (Returned events)
  = Some (Response 500 (EngineMessage TypeError)).
Proof.
  intros Hbuf Hread Htab Hname Hsheet Hjson Hok Hk Hget Hr Hpass.
  unfold data_respond. rewrite Hbuf. unfold data_try.
  rewrite Hread, Htab. cbn [query_text query_truthy].
  unfold sheets_get. rewrite Hsheet. cbn [sheet_truthy negb].
  apply String.eqb_neq in Hname. rewrite Hname.
  cbn [negb]. rewrite Hjson. unfold fresh_rows.
  destruct (transformData_fresh v rows Hok) as [h' ->].
  rewrite (filterData_request_throws _ _ r Hr); [done|].
  apply (every_request_throws r _ _ k text).
  - apply query_delete_keys. split; [done|]. by eapply query_get_keys.
  - done.
  - by rewrite query_get_delete_ne.
  - intros Hin. by apply query_delete_keys in Hin as [? _].
  - intros field s Hin Hs. apply query_delete_keys in Hin as [Hne _].
    rewrite query_get_delete_ne in Hs by done.
    apply existsb_strict_eq. apply (Hpass field s Hne Hs).
Qed.

End data_facts.

Section data_witnesses.

(** A workbook with two sheets, read from any buffer, and the
    rows of a worksheet as the worksheet itself. *)
Let demo_sheet1 : list row :=
  [ {[ "Name" := VStr "Doe, Jane"; "Region" := VStr "East" ]};
    {[ "Name" := VStr "Roe, Richard"; "Region" := VStr "West" ]} ].
Let demo_sheet2 : list row := [ {[ "Name" := VNum 42%float ]} ].
Let demo_read (b : list ascii) : result (gmap string (list row)) :=
  Returned {[ "Sheet1" := demo_sheet1; "Sheet2" := demo_sheet2 ]}.
Let demo_to_json (s : @sheet_value (list row)) : result (list row) :=
  match s with
  | Worksheet w => Returned w
  | _ => Returned []
  end.
Let demo_events : list stream_event := [OnData (ChunkString "xlsx"); OnEnd].

Let demo_sheets : gmap string (list row) :=
  {[ "Sheet1" := demo_sheet1; "Sheet2" := demo_sheet2 ]}.

Lemma data_respond_rows_witness :
  let params := [ ("tab", "Sheet1"); ("Region", "East") ] in
  let buffer := list_ascii_of_string "xlsx" in
  streamToBuffer demo_events = Fulfilled buffer
  ∧ demo_read buffer = Returned demo_sheets
  ∧ (list_to_map params : query) !! "tab" = Some "Sheet1" ∧ "Sheet1" ≠ ""
  ∧ demo_sheets !! "Sheet1" = Some demo_sheet1
  ∧ demo_to_json (Worksheet demo_sheet1) = Returned demo_sheet1
  ∧ Forall (λ r, row_ok Single r = true) demo_sheet1
  ∧ ∃ kept,
      data_respond false demo_read demo_to_json Single (string_query params)
        (Returned demo_events)
      = Some (Response 200 (Json kept))
      ∧ kept = filterData (transformRow_pure Single <$> demo_sheet1)
                 (delete "tab" (list_to_map params))
      ∧ ∀ r, r ∈ kept
             ↔ r ∈ transformRow_pure Single <$> demo_sheet1
               ∧ passes_all (delete "tab" (list_to_map params)) r.
Proof.
  intros params buffer.
  assert (streamToBuffer demo_events = Fulfilled buffer) as H1 by reflexivity.
  assert (demo_read buffer = Returned demo_sheets) as H2 by reflexivity.
  assert ((list_to_map params : query) !! "tab" = Some "Sheet1") as H3
    by (vm_compute; reflexivity).
  assert ("Sheet1" ≠ "") as H4 by discriminate.
  assert (demo_sheets !! "Sheet1" = Some demo_sheet1) as H5
    by (vm_compute; reflexivity).
  assert (demo_to_json (Worksheet demo_sheet1) = Returned demo_sheet1) as H6
    by reflexivity.
  assert (Forall (λ r, row_ok Single r = true) demo_sheet1) as H7
    by (repeat constructor; vm_compute; reflexivity).
  repeat (split; [assumption|]).
  exact (data_respond_rows demo_read demo_to_json Single params demo_events
           buffer demo_sheets "Sheet1" demo_sheet1 demo_sheet1
           H1 H2 H3 H4 H5 H6 H7).
Defined.

Lemma data_respond_no_sheet_witness :
  let rq : request_query :=
    [ ("tab", QueryString "Sheet9"); ("Region", QueryString "East") ] in
  let rq' : request_query := [ ("Region", QueryString "East") ] in
  let buffer := list_ascii_of_string "xlsx" in
  streamToBuffer demo_events = Fulfilled buffer
  ∧ demo_read buffer = Returned demo_sheets
  ∧ ((query_text (query_get rq "tab") ∉ proto_keys)
     ∧ demo_sheets !! query_text (query_get rq "tab") = None
     ∧ data_respond false demo_read demo_to_json Single rq
         (Returned demo_events)
       = Some (Response 500 (Text (tab_not_found "Sheet9"))))
  ∧ ((query_text (query_get rq' "tab") ∉ proto_keys)
     ∧ demo_sheets !! query_text (query_get rq' "tab") = None
     ∧ data_respond true demo_read demo_to_json Single rq'
         (Returned demo_events)
       = Some (Response 500 (Text (tab_not_found "undefined")))).
Proof.
  intros rq rq' buffer.
  assert (streamToBuffer demo_events = Fulfilled buffer) as H1 by reflexivity.
  assert (demo_read buffer = Returned demo_sheets) as H2 by reflexivity.
  assert (query_text (query_get rq "tab") ∉ proto_keys) as H3
    by compute_done.
  assert (demo_sheets !! query_text (query_get rq "tab") = None) as H4
    by (vm_compute; reflexivity).
  assert (query_text (query_get rq' "tab") ∉ proto_keys) as H5
    by compute_done.
  assert (demo_sheets !! query_text (query_get rq' "tab") = None) as H6
    by (vm_compute; reflexivity).
  repeat (split; [assumption|]).
  split.
  - repeat (split; [assumption|]).
    exact (data_respond_no_sheet demo_read demo_to_json false Single rq
             demo_events buffer demo_sheets H1 H2 H3 H4).
  - repeat (split; [assumption|]).
    exact (data_respond_no_sheet demo_read demo_to_json true Single rq'
             demo_events buffer demo_sheets H1 H2 H5 H6).
Defined.

Lemma data_respond_tab_required_witness :
  let read (b : list ascii) : result (gmap string (list row)) :=
    Returned {[ "undefined" := demo_sheet1 ]} in
  let rq : request_query := [ ("Region", QueryString "East") ] in
  let buffer := list_ascii_of_string "xlsx" in
  streamToBuffer demo_events = Fulfilled buffer
  ∧ read buffer = Returned {[ "undefined" := demo_sheet1 ]}
  ∧ (data_respond false read demo_to_json Single rq (Returned demo_events)
     = Some (Response 400 (Text "Tab query parameter is required"))
     ↔ query_truthy (query_get rq "tab") = false
       ∧ is_Some (({[ "undefined" := demo_sheet1 ]} : gmap string (list row))
                    !! query_text (query_get rq "tab"))).
Proof.
  intros read rq buffer.
  assert (streamToBuffer demo_events = Fulfilled buffer) as H1 by reflexivity.
  assert (read buffer = Returned {[ "undefined" := demo_sheet1 ]}) as H2
    by reflexivity.
  repeat (split; [assumption|]).
  exact (data_respond_tab_required read demo_to_json false Single rq
           demo_events buffer {[ "undefined" := demo_sheet1 ]} H1 H2).
Defined.

Lemma data_respond_type_error_witness :
  let rq : request_query :=
    [ ("tab", QueryString "Sheet2"); ("Region", QueryObject "East,West") ] in
  let buffer := list_ascii_of_string "xlsx" in
  streamToBuffer demo_events = Fulfilled buffer
  ∧ demo_read buffer = Returned demo_sheets
  ∧ query_get rq "tab" = Some (QueryString "Sheet2") ∧ "Sheet2" ≠ ""
  ∧ demo_sheets !! "Sheet2" = Some demo_sheet2
  ∧ demo_to_json (Worksheet demo_sheet2) = Returned demo_sheet2
  ∧ Exists (λ r, row_ok Single r = false) demo_sheet2
  ∧ data_respond true demo_read demo_to_json Single rq (Returned demo_events)
    = Some (Response 500 (EngineMessage TypeError)).
Proof.
  intros rq buffer.
  assert (streamToBuffer demo_events = Fulfilled buffer) as H1 by reflexivity.
  assert (demo_read buffer = Returned demo_sheets) as H2 by reflexivity.
  assert (query_get rq "tab" = Some (QueryString "Sheet2")) as H3
    by reflexivity.
  assert ("Sheet2" ≠ "") as H4 by discriminate.
  assert (demo_sheets !! "Sheet2" = Some demo_sheet2) as H5
    by (vm_compute; reflexivity).
  assert (demo_to_json (Worksheet demo_sheet2) = Returned demo_sheet2) as H6
    by reflexivity.
  assert (Exists (λ r, row_ok Single r = false) demo_sheet2) as H7
    by (apply Exists_cons_hd; vm_compute; reflexivity).
  repeat (split; [assumption|]).
  exact (data_respond_type_error demo_read demo_to_json true Single rq
           demo_events buffer demo_sheets "Sheet2" demo_sheet2 demo_sheet2
           H1 H2 H3 H4 H5 H6 H7).
Defined.

Lemma data_respond_accessor_no_rows_witness :
  let params := [ ("tab", "Sheet1"); ("Region", "East") ] in
  let buffer := list_ascii_of_string "xlsx" in
  streamToBuffer demo_events = Fulfilled buffer
  ∧ demo_read buffer = Returned demo_sheets
  ∧ (list_to_map params : query) !! "tab" = Some "Sheet1" ∧ "Sheet1" ≠ ""
  ∧ demo_sheets !! "Sheet1" = Some demo_sheet1
  ∧ demo_to_json (Worksheet demo_sheet1) = Returned demo_sheet1
  ∧ Forall (λ r, row_ok Single r = true) demo_sheet1
  ∧ data_respond true demo_read demo_to_json Single (string_query params)
      (Returned demo_events)
    = Some (Response 200 (Json [])).
Proof.
  intros params buffer.
  assert (streamToBuffer demo_events = Fulfilled buffer) as H1 by reflexivity.
  assert (demo_read buffer = Returned demo_sheets) as H2 by reflexivity.
  assert ((list_to_map params : query) !! "tab" = Some "Sheet1") as H3
    by (vm_compute; reflexivity).
  assert ("Sheet1" ≠ "") as H4 by discriminate.
  assert (demo_sheets !! "Sheet1" = Some demo_sheet1) as H5
    by (vm_compute; reflexivity).
  assert (demo_to_json (Worksheet demo_sheet1) = Returned demo_sheet1) as H6
    by reflexivity.
  assert (Forall (λ r, row_ok Single r = true) demo_sheet1) as H7
    by (repeat constructor; vm_compute; reflexivity).
  repeat (split; [assumption|]).
  exact (data_respond_accessor_no_rows demo_read demo_to_json Single params
           demo_events buffer demo_sheets "Sheet1" demo_sheet1 demo_sheet1
           H1 H2 H3 H4 H5 H6 H7).
Defined.

Lemma data_respond_repeated_parameter_witness :
  let rq : request_query :=
    [ ("tab", QueryString "Sheet1"); ("Region", QueryObject "East,West") ] in
  let buffer := list_ascii_of_string "xlsx" in
  let r : row :=
    transformRow_pure Single
      {[ "Name" := VStr "Doe, Jane"; "Region" := VStr "East" ]} in
  streamToBuffer demo_events = Fulfilled buffer
  ∧ demo_read buffer = Returned demo_sheets
  ∧ query_get rq "tab" = Some (QueryString "Sheet1") ∧ "Sheet1" ≠ ""
  ∧ demo_sheets !! "Sheet1" = Some demo_sheet1
  ∧ demo_to_json (Worksheet demo_sheet1) = Returned demo_sheet1
  ∧ Forall (λ r, row_ok Single r = true) demo_sheet1
  ∧ "Region" ≠ "tab"
  ∧ query_get rq "Region" = Some (QueryObject "East,West")
  ∧ r ∈ transformRow_pure Single <$> demo_sheet1
  ∧ (∀ field accepted, field ≠ "tab" →
       query_get rq field = Some (QueryString accepted) →
       passes_key r field accepted)
  ∧ data_respond false demo_read demo_to_json Single rq (Returned demo_events)
    = Some (Response 500 (EngineMessage TypeError)).
Proof.
  intros rq buffer r.
  assert (streamToBuffer demo_events = Fulfilled buffer) as H1 by reflexivity.
  assert (demo_read buffer = Returned demo_sheets) as H2 by reflexivity.
  assert (query_get rq "tab" = Some (QueryString "Sheet1")) as H3
    by reflexivity.
  assert ("Sheet1" ≠ "") as H4 by discriminate.
  assert (demo_sheets !! "Sheet1" = Some demo_sheet1) as H5
    by (vm_compute; reflexivity).
  assert (demo_to_json (Worksheet demo_sheet1) = Returned demo_sheet1) as H6
    by reflexivity.
  assert (Forall (λ r, row_ok Single r = true) demo_sheet1) as H7
    by (repeat constructor; vm_compute; reflexivity).
  assert ("Region" ≠ "tab") as H8 by discriminate.
  assert (query_get rq "Region" = Some (QueryObject "East,West")) as H9
    by reflexivity.
  assert (r ∈ transformRow_pure Single <$> demo_sheet1) as H10.
  { unfold demo_sheet1. cbn [fmap list_fmap]. apply elem_of_cons. by left. }
  assert (∀ field accepted, field ≠ "tab" →
            query_get rq field = Some (QueryString accepted) →
            passes_key r field accepted) as H11.
  { intros field accepted Hne Hget. unfold rq in Hget.
    cbn [query_get] in Hget.
    destruct (String.eqb_spec "tab" field) as [<-|_]; [done|].
    destruct (String.eqb "Region" field); discriminate Hget. }
  repeat (split; [assumption|]).
  exact (data_respond_repeated_parameter demo_read demo_to_json Single rq
           demo_events buffer demo_sheets "Sheet1" demo_sheet1 demo_sheet1
           "Region" "East,West" r H1 H2 H3 H4 H5 H6 H7 H8 H9 H10 H11).
Defined.

End data_witnesses.

(** * Upload, then data *)

Section upload_data.
Context {W : Type}.
Variable query_is_accessor : bool.
Variable xlsx_read : list ascii → result (gmap string W).
Variable sheet_to_json : @sheet_value W → result (list row).
Variable connect : account → result ().
Variable requestId : option string.
Variable chunking : list ascii → list chunk.
Variables (blob_not_found length_mismatch : thrown).

Local Abbreviation run_store := (run connect requestId chunking blob_not_found length_mismatch).

(** X16: against a store that keeps what was uploaded last at an address
    and hands it out in chunks that make up the content, an upload that is
    answered by the 200 is followed by data requests answered from the
    very bytes of the uploaded file, whatever the name of the file: both
    handlers use the blob [spreadsheet.xlsx] of the container [data], and
    the data request leaves the store as it is. *)
Theorem upload_then_data v env0 env f (q : request_query) st :
  (∀ b, List.concat (to_buffer <$> chunking b) = b) →
  account_of v (match v with Single => env0 | Dual => env end)
  = account_of v env →
  connect (account_of v env) = Returned () →
  size f = List.length (buffer f) →
  ∃ st1,
    run_store (upload_handler v env0 env (Some f)) st
    = (st1, Some (Response 200
         (Text ("File uploaded successfully. Upload block blob response: "
                ++ template_text (of_option requestId)))))
    ∧ run_store
        (data_handler query_is_accessor xlsx_read sheet_to_json v env q) st1
      = (st1, Some (match data_try query_is_accessor xlsx_read sheet_to_json v
                            q (buffer f) with
                    | Raised e => caught e
                    | Returned res => res
                    end)).
Proof.
  intros Hchunks Hacct Hconn Hsize.
  unfold upload_handler. rewrite Hacct. cbn [run answer]. rewrite Hconn.
  cbn [run answer]. rewrite (bool_decide_eq_true_2 _ Hsize).
  eexists. split; [reflexivity|].
  unfold data_handler. cbn [run answer]. rewrite Hconn. cbn [run answer].
  rewrite bool_decide_eq_true_2 by done. cbn [drop].
  unfold data_respond. rewrite streamToBuffer_end, Hchunks, drop_0.
  by destruct (data_try query_is_accessor xlsx_read sheet_to_json v q (buffer f)).
Qed.

End upload_data.

Lemma upload_then_data_witness :
  let read (b : list ascii) : result (gmap string (list row)) :=
    Returned {[ "Sheet1" := [] ]} in
  let to_json (s : @sheet_value (list row)) : result (list row) :=
    match s with Worksheet w => Returned w | _ => Returned [] end in
  let connect (a : account) : result () := Returned () in
  let chunking (b : list ascii) : list chunk :=
    [ChunkBuffer (take 2 b); ChunkBuffer (drop 2 b)] in
  let e := ErrorObject "BlobNotFound" in
  let f := File "budget.xlsx" (list_ascii_of_string "xlsx") 4 in
  let env : gmap string string :=
    {[ "AZURE_STORAGE_CONNECTION_STRING" := "UseDevelopmentStorage=true" ]} in
  let q : request_query := [ ("tab", QueryString "Sheet1") ] in
  let st : store := λ _, None in
  (∀ b, List.concat (to_buffer <$> chunking b) = b)
  ∧ account_of Single env = account_of Single env
  ∧ connect (account_of Single env) = Returned ()
  ∧ size f = List.length (buffer f)
  ∧ ∃ st1,
      run connect (Some "r1") chunking e e
        (upload_handler Single env env (Some f)) st
      = (st1, Some (Response 200
           (Text ("File uploaded successfully. Upload block blob response: "
                  ++ template_text (of_option (Some "r1"))))))
      ∧ run connect (Some "r1") chunking e e
          (data_handler false read to_json Single env q) st1
        = (st1, Some (match data_try false read to_json Single q (buffer f) with
                      | Raised e => caught e
                      | Returned res => res
                      end)).
Proof.
  intros read to_json connect chunking e f env q st.
  assert (∀ b, List.concat (to_buffer <$> chunking b) = b) as H1.
  { intros b. unfold chunking. cbn [fmap list_fmap to_buffer List.concat].
    rewrite app_nil_r. apply take_drop. }
  assert (account_of Single env = account_of Single env) as H2
    by reflexivity.
  assert (connect (account_of Single env) = Returned ()) as H3
    by reflexivity.
  assert (size f = List.length (buffer f)) as H4 by reflexivity.
  repeat (split; [assumption|]).
  exact (upload_then_data false read to_json connect (Some "r1") chunking e e
           Single env env f q st H1 H2 H3 H4).
Defined.

(** * No segment of a split holds the separator *)

Section split_clean.
Implicit Types (s sep u rest : string) (cur : list ascii).

Lemma prefix_app_l sep u rest :
  String.prefix sep u = true → String.prefix sep (u ++ rest) = true.
Proof.
  revert u. induction sep as [|b sep IH]; intros u Hp.
  - by destruct (u ++ rest).
  - destruct u as [|a u]; [discriminate Hp|].
    rewrite append_cons. cbn [String.prefix] in Hp |- *.
    destruct (ascii_dec b a); [|done]. by apply IH.
Qed.

Lemma clean_occurs sep u rest :
  sep ≠ "" → clean sep u rest = true → occurs sep u = false.
Proof.
  intros Hsep. induction u as [|a u IH]; intros Hc.
  - by destruct sep.
  - cbn [clean] in Hc. apply andb_true_iff in Hc as [Hp Hc].
    cbn [occurs]. rewrite (IH Hc), orb_false_r.
    apply negb_true_iff in Hp.
    destruct (String.prefix sep (String a u)) eqn:Hpu; [|done].
    by rewrite (prefix_app_l _ _ rest Hpu) in Hp.
Qed.

Lemma append_assoc_cons u (a : ascii) rest :
  (u ++ String a "") ++ rest = u ++ String a rest.
Proof.
  induction u as [|b u IH]; [done|]. by rewrite !append_cons, IH.
Qed.

Lemma clean_snoc sep u (a : ascii) rest :
  clean sep u (String a rest) = true →
  String.prefix sep (String a rest) = false →
  clean sep (u ++ String a "") rest = true.
Proof.
  intros Hc Hp. induction u as [|b u IH].
  - rewrite append_empty_l. cbn [clean].
    by rewrite append_cons, append_empty_l, Hp.
  - cbn [clean] in Hc. apply andb_true_iff in Hc as [Hb Hc].
    rewrite append_cons. cbn [clean].
    rewrite append_cons, append_assoc_cons, <- append_cons, Hb.
    by apply IH.
Qed.

Lemma string_of_snoc (l : list ascii) (a : ascii) :
  string_of_list_ascii (l ++ [a]) = string_of_list_ascii l ++ String a "".
Proof.
  induction l as [|b l IH]; [done|].
  cbn [app string_of_list_ascii]. by rewrite append_cons, IH.
Qed.

Lemma string_drop_length (n : nat) s :
  (String.length (string_drop n s) ≤ String.length s)%nat.
Proof.
  revert s. induction n as [|n IH]; intros s; [by destruct s|].
  destruct s as [|a s]; [done|]. cbn [string_drop String.length].
  specialize (IH s). lia.
Qed.

Lemma split_go_clean sep (m : nat) :
  sep ≠ "" →
  ∀ s cur, (String.length s ≤ m)%nat →
    clean sep (string_of_list_ascii (rev cur)) s = true →
    Forall (λ seg, occurs sep seg = false) (split_go sep 0 cur s).
Proof.
  intros Hsep. induction m as [|m IH]; intros s cur Hm Hc.
  - destruct s; cbn [String.length] in Hm; [|lia].
    cbn [split_go]. repeat constructor. by eapply clean_occurs.
  - destruct s as [|a s].
    { cbn [split_go]. repeat constructor. by eapply clean_occurs. }
    cbn [split_go]. cbn [String.length] in Hm.
    destruct (String.prefix sep (String a s)) eqn:Hp.
    + constructor; [by eapply clean_occurs|].
      pose proof (prefix_append _ _ Hp) as Hs.
      destruct sep as [|b sep]; [done|].
      simpl in Hs. rewrite append_cons in Hs. injection Hs as Hab Hs.
      assert (String.length sep ≤ String.length s)%nat as Hlen
        by (rewrite Hs, string_length_append; lia).
      replace (String.length (String b sep) - 1)%nat with (String.length sep)
        by (cbn [String.length]; lia).
      rewrite split_go_skip by done. apply IH; [|done].
      pose proof (string_drop_length (String.length sep) s). lia.
    + apply IH; [lia|]. cbn [rev]. rewrite string_of_snoc.
      by apply clean_snoc.
Qed.

Lemma js_split_clean s sep seg :
  sep ≠ "" → seg ∈ js_split s sep → occurs sep seg = false.
Proof.
  intros Hsep Hin.
  pose proof (split_go_clean sep (String.length s) Hsep s []
                (le_n _) eq_refl) as Hall.
  by apply (proj1 (Forall_forall _ _) Hall).
Qed.

End split_clean.

Section clean_claims.
Implicit Types (v : schema) (r : row) (h : heap) (l : loc) (ls : list loc).

(** X17: a cell whose text holds a comma cannot be selected: the values a
    constraint accepts are cut at the commas, so none of them holds one,
    and the row fails every constraint on that column. *)
Theorem filterData_comma_cell (data : list row) (q : query) field accepted r s :
  q !! field = Some accepted → field ≠ "tab" →
  get r field = VStr s → occurs "," s = true →
  r ∉ filterData data q.
Proof.
  intros Hq Hne Hcell Hcomma Hin. unfold filterData in Hin.
  apply list_elem_of_In, filter_In in Hin as [_ Hpass].
  rewrite row_passes_true in Hpass.
  specialize (Hpass field (ex_intro _ accepted Hq)).
  apply (field_test_other r q field accepted Hne Hq) in Hpass
    as (seg & Hseg & Heq).
  rewrite Hcell in Heq. injection Heq as ->.
  apply js_split_clean in Hseg; [congruence|done].
Qed.

Lemma filterData_comma_cell_witness :
  let r : row := {[ "Name" := VStr "Doe, Jane" ]} in
  let q : query := {[ "Name" := "Doe, Jane" ]} in
  q !! "Name" = Some "Doe, Jane" ∧ "Name" ≠ "tab"
  ∧ get r "Name" = VStr "Doe, Jane" ∧ occurs "," "Doe, Jane" = true
  ∧ r ∉ filterData [r] q.
Proof.
  intros r q.
  assert (q !! "Name" = Some "Doe, Jane") as Hq by (vm_compute; reflexivity).
  assert ("Name" ≠ "tab") as Hne by discriminate.
  assert (get r "Name" = VStr "Doe, Jane") as Hcell
    by (vm_compute; reflexivity).
  assert (occurs "," "Doe, Jane" = true) as Hcomma by reflexivity.
  repeat (split; [assumption|]).
  exact (filterData_comma_cell [r] q "Name" "Doe, Jane" r "Doe, Jane"
           Hq Hne Hcell Hcomma).
Defined.

Lemma composite_spec_clean (cell : value) :
  occurs " - " (composite_spec cell).1 = false
  ∧ occurs " - " (composite_spec cell).2 = false.
Proof.
  unfold composite_spec. destruct cell; try done.
  destruct (String.eqb s ""); [done|].
  destruct (js_split (strip_ext_at s) " - ") as [|c [|p rest]] eqn:Hseg;
    try done.
  cbn [fst snd]. split; apply (js_split_clean (strip_ext_at s) " - ");
    try done; rewrite Hseg.
  - by left.
  - right. by left.
Qed.

(** X18: [Client] and [Project] of an output row are texts that hold no
    [ - ]: whatever the composite cell is, the delimiter never ends up in
    a derived value. *)
Theorem transformData_client_project_clean v ls h :
  Forall (λ l, row_ok v (h !!! l) = true) ls →
  ∃ h' out,
    transformData_of v ls h = (h', Ok out)
    ∧ ∀ i o, out !! i = Some o →
        ∃ client project,
          o !! "Client" = Some (VStr client)
          ∧ o !! "Project" = Some (VStr project)
          ∧ occurs " - " client = false ∧ occurs " - " project = false.
Proof.
  intros Hok. rewrite (transformData_ok _ _ _ Hok). eexists _, _.
  split; [done|]. intros i o Hi.
  assert (i < List.length ls)%nat as Hlt.
  { rewrite <- (run_outputs_length (row_heap v) (output v) ls h).
    by eapply lookup_lt_Some. }
  destruct (lookup_lt_is_Some_2 ls i Hlt) as [l Hl].
  rewrite (run_outputs_lookup _ _ _ _ _ _ Hl) in Hi. injection Hi as <-.
  destruct (output_client_project v l
              (run_heap (row_heap v) (take i ls) h)) as [Hc Hp].
  eexists _, _. split; [exact Hc|]. split; [exact Hp|].
  apply composite_spec_clean.
Qed.

Lemma transformData_client_project_clean_witness :
  let h : heap :=
    {[ 0 := {[ "Primary Opp" := VStr "Ext. at Acme - Widget - 2024" ]} ]} in
  Forall (λ l, row_ok Single (h !!! l) = true) [0]
  ∧ ∃ h' out,
      transformData_of Single [0] h = (h', Ok out)
      ∧ ∀ i o, out !! i = Some o →
          ∃ client project,
            o !! "Client" = Some (VStr client)
            ∧ o !! "Project" = Some (VStr project)
            ∧ occurs " - " client = false ∧ occurs " - " project = false.
Proof.
  intros h.
  assert (Forall (λ l, row_ok Single (h !!! l) = true) [0]) as Hok
    by (repeat constructor; vm_compute; reflexivity).
  split; [exact Hok|].
  exact (transformData_client_project_clean Single [0] h Hok).
Defined.

End clean_claims.
